(** * wake-sleep-stt: the mode controller of [src/wakeSleepStt.ts]

    A shallow embedding of the [WakeSleepSTT] class: the text normalizer,
    the wake and sleep matchers, the recognition handlers, the two restart
    schedulers and the public start and stop operations, followed by the
    properties of the specification that concern them.

    Conventions of the embedding.
    - A string is the list of its code units; the code units are those
      below 256 (Latin-1), which [ascii] enumerates exactly.
    - A JavaScript [number] that the code only counts with is a [Z]; the
      confidence score and its threshold are IEEE 754 doubles ([float]);
      a backoff delay in milliseconds is a rational.
    - What the class reads from its environment (connectivity, clock,
      random jitter, whether an adapter call throws) is an argument of the
      operation that reads it.
    - The two patterns are [\b(w1|...|wn)\b] with the words as supplied.
      Patterns of literal words are matched here; a pattern whose words
      carry pattern characters is compiled by the regular-expression
      engine of the host, which is an argument of the constructor.
    - An [async] method is cut at its [await]s into the pieces that run
      without interruption; a suspended piece waits in the [pending] list
      of the instance until the environment resumes it. *)

From Stdlib Require Import List Bool Ascii String NArith ZArith QArith Qminmax Qround Lia.
From Stdlib Require Import Floats.PrimFloat.
Import ListNotations.

(** ** Strings *)

Definition str := list ascii.

Definition lit (s : string) : str := list_ascii_of_string s.

Definition code (c : ascii) : N := N_of_ascii c.

Definition between (lo hi : N) (c : ascii) : bool :=
  (N.leb lo (code c) && N.leb (code c) hi)%bool.

(** [String.prototype.toLowerCase] on one code unit: A-Z, and the Latin-1
    capitals U+00C0..U+00DE without the multiplication sign U+00D7. *)
Definition toLowerChar (c : ascii) : ascii :=
  if (between 65 90 c || (between 192 222 c && negb (N.eqb (code c) 215)))%bool
  then ascii_of_N (code c + 32) else c.

Definition toLowerCase (s : str) : str := map toLowerChar s.

(** White space and line terminators of ECMAScript below 256:
    TAB, LF, VT, FF, CR, SP and NBSP. *)
Definition isWhiteSpace (c : ascii) : bool :=
  (between 9 13 c || N.eqb (code c) 32 || N.eqb (code c) 160)%bool.

Fixpoint trimStart (s : str) : str :=
  match s with
  | [] => []
  | c :: r => if isWhiteSpace c then trimStart r else s
  end.

Definition trimEnd (s : str) : str := rev (trimStart (rev s)).

Definition trim (s : str) : str := trimEnd (trimStart s).

(** The character class [[.,!?;:]]. *)
Definition isPunctuation (c : ascii) : bool :=
  existsb (Ascii.eqb c) (lit ".,!?;:").

Definition stripPunctuation (s : str) : str :=
  filter (fun c => negb (isPunctuation c)) s.

(** [normalizeTranscript]:
    [text.toLowerCase().trim().replace(/[.,!?;:]/g, '')]. *)
Definition normalizeTranscript (text : str) : str :=
  stripPunctuation (trim (toLowerCase text)).

(** ** Regular expressions [\b(w1|...|wn)\b] with flag [i] *)

(** [IsWordChar] of ECMAScript: [A-Za-z0-9_]. *)
Definition isWordChar (c : ascii) : bool :=
  (between 97 122 c || between 65 90 c || between 48 57 c || N.eqb (code c) 95)%bool.

(** [Canonicalize] under flag [i] without flag [u]: the upper-case code
    unit. U+00B5, U+00DF and U+00FF have no upper case below 256 and no
    other code unit below 256 shares theirs, so they stand for themselves. *)
Definition canonicalize (c : ascii) : ascii :=
  if (between 97 122 c || (between 224 254 c && negb (N.eqb (code c) 247)))%bool
  then ascii_of_N (code c - 32) else c.

(** The pattern characters that are not literals. *)
Definition isSyntaxCharacter (c : ascii) : bool :=
  existsb (Ascii.eqb c) (lit "^$\.*+?()[]{}|").

Definition bar : ascii := "|"%char.

(** [Array.prototype.join]. *)
Fixpoint join (sep : str) (l : list str) : str :=
  match l with
  | [] => []
  | [x] => x
  | x :: r => x ++ sep ++ join sep r
  end.

(** The alternatives of a disjunction whose source has no pattern
    character but [|]. *)
Fixpoint splitBar (s : str) : list str :=
  match s with
  | [] => [[]]
  | c :: r =>
      if Ascii.eqb c bar then [] :: splitBar r
      else match splitBar r with
           | [] => [[c]]
           | a :: l => (c :: a) :: l
           end
  end.

(** A pattern of literal alternatives, [\b(a1|...|an)\b]. *)
Record Disjunction := { alternatives : list str }.

(** The words go into the pattern as they are, so a word with a pattern
    character is pattern syntax. Such a pattern is the engine's to compile:
    [engine p] is [None] when [new RegExp(p, 'i')] throws a [SyntaxError],
    and otherwise the [test] method of the expression it builds (a function
    of the text alone, the flags being [i] only). *)
Definition Engine := str -> option (str -> bool).

(** An engine that compiles nothing; an instance whose words are literal
    text never consults its engine. *)
Definition rejecting : Engine := fun _ => None.

Inductive RegExp :=
| Literal (d : Disjunction)
| Foreign (accepts : str -> bool).

(** The template literal [`\\b(${words.join('|')})\\b`]. *)
Definition pattern (words : list str) : str :=
  lit "\b(" ++ join [bar] words ++ lit ")\b".

(** [new RegExp(`\\b(${words.join('|')})\\b`, 'i')]. Words that are literal
    text (and [|], which separates alternatives wherever it stands) give a
    pattern of literal alternatives; any other pattern goes to the engine. *)
Definition newRegExp (engine : Engine) (words : list str) : option RegExp :=
  let body := join [bar] words in
  if existsb (fun c => isSyntaxCharacter c && negb (Ascii.eqb c bar))%bool body
  then option_map Foreign (engine (pattern words))
  else Some (Literal {| alternatives := splitBar body |}).

Definition endsWithWordChar (s : str) : bool :=
  match rev s with
  | [] => false
  | c :: _ => isWordChar c
  end.

Definition startsWithWordChar (s : str) : bool :=
  match s with
  | [] => false
  | c :: _ => isWordChar c
  end.

(** The assertion [\b] between the text already passed and the text ahead. *)
Definition isBoundary (before after : str) : bool :=
  xorb (endsWithWordChar before) (startsWithWordChar after).

(** A literal alternative against the text ahead: the text it consumes and
    the text left. *)
Fixpoint matchLiteral (alt s : str) : option (str * str) :=
  match alt, s with
  | [], _ => Some ([], s)
  | _ :: _, [] => None
  | a :: alt', c :: s' =>
      if Ascii.eqb (canonicalize a) (canonicalize c)
      then match matchLiteral alt' s' with
           | Some (w, post) => Some (c :: w, post)
           | None => None
           end
      else None
  end.

(** One attempt at a fixed start position. *)
Definition matchAt (re : Disjunction) (before after : str) : bool :=
  (isBoundary before after &&
   existsb (fun alt =>
              match matchLiteral alt after with
              | Some (w, post) => isBoundary (before ++ w) post
              | None => false
              end) (alternatives re))%bool.

(** The start positions from left to right. *)
Fixpoint testFrom (re : Disjunction) (before after : str) : bool :=
  (matchAt re before after ||
   match after with
   | [] => false
   | c :: r => testFrom re (before ++ [c]) r
   end)%bool.

(** [RegExp.prototype.test] (no flag [g] or [y]: every call starts at 0). *)
Definition test (re : RegExp) (s : str) : bool :=
  match re with
  | Literal d => testFrom d [] s
  | Foreign accepts => accepts s
  end.

(** ** Data of the class *)

Inductive STTState := Idle | Listening | Transcribing | Error | Stopped.

Definition STTState_eqb (a b : STTState) : bool :=
  match a, b with
  | Idle, Idle | Listening, Listening | Transcribing, Transcribing
  | Error, Error | Stopped, Stopped => true
  | _, _ => false
  end.

(** The third argument of [setState]: the machine-readable code. *)
Inductive ErrorCode :=
| not_supported | file_protocol | microphone_denied | offline
| network_connecting | network_offline | network
| max_attempts_reached | restart_failed | permission_denied
| service_not_allowed.

(** The second argument of [setState]: one constructor per message text
    of the source, with the numbers the text interpolates. *)
Inductive Message :=
| MsgNotSupported
| MsgFileProtocol
| MsgMicrophoneRequired
| MsgConnectionLost
| MsgConnecting
| MsgNoInternet
| MsgRetryWhenOnline (remainingAttempts : Z)
| MsgRetryingIn (seconds remainingAttempts : Z)
| MsgUnableToConnect (onLine : bool)
| MsgCouldNotConnect (maxRestartAttempts : Z)
| MsgReconnectingIn (seconds remainingAttempts : Z)
| MsgFinalAttempt
| MsgRestartFailed
| MsgInitFailed
| MsgAllowMicrophone
| MsgServiceNotAllowed
| MsgMicrophoneDenied.

Record TranscriptPayload := {
  transcript : str;
  isFinal : bool;
  confidence : option float;
  timestamp : Z
}.

Record StatePayload := {
  state : STTState;
  message : option Message;
  error : option ErrorCode
}.

Inductive STTEvent :=
| TranscriptEvent (payload : TranscriptPayload)
| StateEvent (payload : StatePayload).

(** The fields of [WakeSleepSTTOptions] the controller reads; an absent
    field is [None]. [continuous], [interimResults] and [language] are
    only copied to the adapter. *)
Record WakeSleepSTTOptions := {
  opt_wakeWords : option (list str);
  opt_sleepWords : option (list str);
  opt_onEvent : bool;
  opt_wakeConfidenceThreshold : option float;
  opt_autoRestart : option bool;
  opt_maxRestartAttempts : option Z
}.

(** The fields assigned once, in the constructor. *)
Record Config := {
  wakeWords : list str;
  sleepWords : list str;
  wakeConfidenceThreshold : float;
  autoRestart : bool;
  maxRestartAttempts : Z;
  wakeRegex : RegExp;
  sleepRegex : RegExp
}.

(** Which closure a restart timer runs: the one [scheduleRestart] passes
    to [setTimeout] or the one [handleNetworkError] passes. *)
Inductive TimerCallback := RestartCallback | NetworkCallback.

Record Timer := {
  handle : nat;
  callback : TimerCallback;
  delay : Q
}.

(** Who awaits a [startListening] promise: a caller of the public method,
    one of the [online] listeners ([.catch(console.error)]), or the timer
    closure of [handleNetworkError]. *)
Inductive Caller := ByUser | ByOnlineListener | ByNetworkTimer.

(** The suspended pieces of the [async] methods. *)
Inductive Continuation :=
| AfterProbe
| AwaitMicrophone (caller : Caller)
| AwaitStream (caller : Caller).

(** An instance together with what the window holds for it: the live
    timers, the one-shot [online] listeners, the suspended pieces and the
    events delivered to the callback (oldest first). *)
Record STT := {
  config : Config;
  onEventCallback : bool;
  recognition : bool;
  currentState : STTState;
  isTranscribing : bool;
  restartAttempts : Z;
  restartTimeout : option nat;
  timers : list Timer;
  nextHandle : nat;
  onlineOnce : nat;
  pending : list Continuation;
  events : list STTEvent
}.

Definition set_onEventCallback (v : bool) (s : STT) : STT :=
  {| config := config s; onEventCallback := v; recognition := recognition s;
     currentState := currentState s; isTranscribing := isTranscribing s;
     restartAttempts := restartAttempts s; restartTimeout := restartTimeout s;
     timers := timers s; nextHandle := nextHandle s; onlineOnce := onlineOnce s;
     pending := pending s; events := events s |}.

Definition set_recognition (v : bool) (s : STT) : STT :=
  {| config := config s; onEventCallback := onEventCallback s; recognition := v;
     currentState := currentState s; isTranscribing := isTranscribing s;
     restartAttempts := restartAttempts s; restartTimeout := restartTimeout s;
     timers := timers s; nextHandle := nextHandle s; onlineOnce := onlineOnce s;
     pending := pending s; events := events s |}.

Definition set_currentState (v : STTState) (s : STT) : STT :=
  {| config := config s; onEventCallback := onEventCallback s;
     recognition := recognition s;
     currentState := v; isTranscribing := isTranscribing s;
     restartAttempts := restartAttempts s; restartTimeout := restartTimeout s;
     timers := timers s; nextHandle := nextHandle s; onlineOnce := onlineOnce s;
     pending := pending s; events := events s |}.

Definition set_isTranscribing (v : bool) (s : STT) : STT :=
  {| config := config s; onEventCallback := onEventCallback s;
     recognition := recognition s;
     currentState := currentState s; isTranscribing := v;
     restartAttempts := restartAttempts s; restartTimeout := restartTimeout s;
     timers := timers s; nextHandle := nextHandle s; onlineOnce := onlineOnce s;
     pending := pending s; events := events s |}.

Definition set_restartAttempts (v : Z) (s : STT) : STT :=
  {| config := config s; onEventCallback := onEventCallback s;
     recognition := recognition s;
     currentState := currentState s; isTranscribing := isTranscribing s;
     restartAttempts := v; restartTimeout := restartTimeout s;
     timers := timers s; nextHandle := nextHandle s; onlineOnce := onlineOnce s;
     pending := pending s; events := events s |}.

Definition set_restartTimeout (v : option nat) (s : STT) : STT :=
  {| config := config s; onEventCallback := onEventCallback s;
     recognition := recognition s;
     currentState := currentState s; isTranscribing := isTranscribing s;
     restartAttempts := restartAttempts s; restartTimeout := v;
     timers := timers s; nextHandle := nextHandle s; onlineOnce := onlineOnce s;
     pending := pending s; events := events s |}.

Definition set_timers (v : list Timer) (s : STT) : STT :=
  {| config := config s; onEventCallback := onEventCallback s;
     recognition := recognition s;
     currentState := currentState s; isTranscribing := isTranscribing s;
     restartAttempts := restartAttempts s; restartTimeout := restartTimeout s;
     timers := v; nextHandle := nextHandle s; onlineOnce := onlineOnce s;
     pending := pending s; events := events s |}.

Definition set_nextHandle (v : nat) (s : STT) : STT :=
  {| config := config s; onEventCallback := onEventCallback s;
     recognition := recognition s;
     currentState := currentState s; isTranscribing := isTranscribing s;
     restartAttempts := restartAttempts s; restartTimeout := restartTimeout s;
     timers := timers s; nextHandle := v; onlineOnce := onlineOnce s;
     pending := pending s; events := events s |}.

Definition set_onlineOnce (v : nat) (s : STT) : STT :=
  {| config := config s; onEventCallback := onEventCallback s;
     recognition := recognition s;
     currentState := currentState s; isTranscribing := isTranscribing s;
     restartAttempts := restartAttempts s; restartTimeout := restartTimeout s;
     timers := timers s; nextHandle := nextHandle s; onlineOnce := v;
     pending := pending s; events := events s |}.

Definition set_pending (v : list Continuation) (s : STT) : STT :=
  {| config := config s; onEventCallback := onEventCallback s;
     recognition := recognition s;
     currentState := currentState s; isTranscribing := isTranscribing s;
     restartAttempts := restartAttempts s; restartTimeout := restartTimeout s;
     timers := timers s; nextHandle := nextHandle s; onlineOnce := onlineOnce s;
     pending := v; events := events s |}.

Definition set_events (v : list STTEvent) (s : STT) : STT :=
  {| config := config s; onEventCallback := onEventCallback s;
     recognition := recognition s;
     currentState := currentState s; isTranscribing := isTranscribing s;
     restartAttempts := restartAttempts s; restartTimeout := restartTimeout s;
     timers := timers s; nextHandle := nextHandle s; onlineOnce := onlineOnce s;
     pending := pending s; events := v |}.

(** ** Operations of the class *)

(** How a call ends, and how a promise settles. *)
Inductive Completion := Returns | Throws.
Inductive Outcome := Resolved | Rejected.

(** An [async] piece either settles its promise or waits at an [await]. *)
Inductive Progress := Settled (o : Outcome) | Suspended.

Definition emitEvent (e : STTEvent) (s : STT) : STT :=
  if onEventCallback s then set_events (events s ++ [e]) s else s.

Definition setState (st : STTState) (msg : option Message)
    (err : option ErrorCode) (s : STT) : STT :=
  emitEvent (StateEvent {| state := st; message := msg; error := err |})
            (set_currentState st s).

(** [now] is the value of [Date.now()]. *)
Definition emitTranscript (t : str) (final : bool) (c : option float)
    (now : Z) (s : STT) : STT :=
  emitEvent (TranscriptEvent {| transcript := t; isFinal := final;
                                confidence := c; timestamp := now |}) s.

Definition detectWakeWord (s : STT) (t : str) : bool :=
  test (wakeRegex (config s)) (normalizeTranscript t).

Definition detectSleepWord (s : STT) (t : str) : bool :=
  test (sleepRegex (config s)) (normalizeTranscript t).

(** [window.clearTimeout] and [window.setTimeout]. *)
Definition clearTimeout (h : nat) (s : STT) : STT :=
  set_timers (filter (fun t => negb (Nat.eqb (handle t) h)) (timers s)) s.

Definition setTimeout (cb : TimerCallback) (d : Q) (s : STT) : STT * nat :=
  (set_nextHandle (S (nextHandle s))
     (set_timers (timers s ++ [{| handle := nextHandle s; callback := cb;
                                  delay := d |}]) s),
   nextHandle s).

Definition clearRestartTimeout (s : STT) : STT :=
  match restartTimeout s with
  | Some h => set_restartTimeout None (clearTimeout h s)
  | None => s
  end.

(** [this.restartTimeout = window.setTimeout(closure, delay)]. *)
Definition armRestartTimeout (cb : TimerCallback) (d : Q) (s : STT) : STT :=
  let (s1, h) := setTimeout cb d s in set_restartTimeout (Some h) s1.

(** [Math.min(2000 * Math.pow(1.5, attempts - 1), 15000) + jitter], with
    [jitter = Math.floor(Math.random() * 1000)]. *)
Definition backoff (attempts jitter : Z) : Q :=
  Qplus (Qmin (Qmult 2000 (Qpower (3 # 2) (attempts - 1))) 15000)
        (inject_Z jitter).

(** [Math.ceil(delay / 1000)]. *)
Definition secondsOf (d : Q) : Z := Qceiling (Qdiv d 1000).

Definition enableTranscriptionMode (s : STT) : STT :=
  if negb (isTranscribing s)
  then setState Transcribing None None (set_isTranscribing true s)
  else s.

Definition disableTranscriptionMode (s : STT) : STT :=
  if isTranscribing s
  then setState Listening None None (set_isTranscribing false s)
  else s.

Definition enableTranscriptionModePublic (s : STT) : STT :=
  enableTranscriptionMode s.

Definition disableTranscriptionModePublic (s : STT) : STT :=
  disableTranscriptionMode s.

Definition onEvent (s : STT) : STT := set_onEventCallback true s.

Definition getState (s : STT) : STTState := currentState s.

Definition isTranscribingActive (s : STT) : bool := isTranscribing s.

Definition suspend (k : Continuation) (s : STT) : STT :=
  set_pending (pending s ++ [k]) s.

(** [handleNetworkError] up to its [await] of the one-second probe. *)
Definition handleNetworkError (s : STT) : STT :=
  if STTState_eqb (currentState s) Error then s
  else suspend AfterProbe
         (setState Error (Some MsgConnecting) (Some network_connecting) s).

(** [handleNetworkError] after the probe. [onLine] is [navigator.onLine]
    as the guard right after the probe reads it, [onLine'] as the later
    read of the branch taken ([isOffline], or the message of the [else]
    branch); [recognition.abort()] may throw, which the [catch] logs, and
    [finally] clears the field either way. *)
Definition handleNetworkError_afterProbe (onLine onLine' : bool) (jitter : Z)
    (s : STT) : STT :=
  if negb onLine
  then setState Error (Some MsgNoInternet) (Some network_offline) s
  else
    let s := if recognition s then set_recognition false s else s in
    if (autoRestart (config s) &&
        Z.ltb (restartAttempts s) (maxRestartAttempts (config s)))%bool
    then
      let s := set_restartAttempts (restartAttempts s + 1) s in
      let d := backoff (restartAttempts s) jitter in
      let remainingAttempts :=
        (maxRestartAttempts (config s) - restartAttempts s + 1)%Z in
      let isOffline := negb onLine' in
      let s :=
        if isOffline
        then set_onlineOnce (S (onlineOnce s))
               (setState Error (Some (MsgRetryWhenOnline remainingAttempts))
                         None s)
        else setState Error
               (Some (MsgRetryingIn (secondsOf d) remainingAttempts)) None s in
      let s := clearRestartTimeout s in
      if negb isOffline then armRestartTimeout NetworkCallback d s else s
    else
      setState Error (Some (MsgUnableToConnect onLine')) (Some network) s.

Definition scheduleRestart (jitter : Z) (s : STT) : STT :=
  if Z.geb (restartAttempts s) (maxRestartAttempts (config s))
  then setState Error (Some (MsgCouldNotConnect (maxRestartAttempts (config s))))
                (Some max_attempts_reached) s
  else
    let s := set_restartAttempts (restartAttempts s + 1) s in
    let d := backoff (restartAttempts s) jitter in
    let remainingAttempts :=
      (maxRestartAttempts (config s) - restartAttempts s + 1)%Z in
    let statusMessage :=
      if Z.gtb remainingAttempts 1
      then MsgReconnectingIn (secondsOf d) remainingAttempts
      else MsgFinalAttempt in
    let s := setState Error (Some statusMessage) None s in
    let s := clearRestartTimeout s in
    armRestartTimeout RestartCallback d s.

(** [apiAvailable]: the window has a [SpeechRecognition] constructor. *)
Definition initRecognition (apiAvailable : bool) (s : STT) : STT * Completion :=
  if recognition s then (s, Returns)
  else if apiAvailable then (set_recognition true s, Returns)
  else (setState Error (Some MsgInitFailed) None s, Throws).

(** A number in a condition: [0], [-0] and [NaN] are falsy. *)
Definition truthy (x : float) : bool :=
  (negb (PrimFloat.eqb x 0%float) && PrimFloat.eqb x x)%bool.

(** [confidence && confidence < this.wakeConfidenceThreshold]. *)
Definition belowThreshold (c : option float) (s : STT) : bool :=
  match c with
  | Some x => (truthy x && PrimFloat.ltb x (wakeConfidenceThreshold (config s)))%bool
  | None => false
  end.

(** [event.results[event.resultIndex]] with its first alternative. *)
Record RecognitionResult := {
  res_transcript : str;
  res_isFinal : bool;
  res_confidence : option float
}.

(** The [onresult] handler; [None] is an event without a result or
    without a first alternative. *)
Definition onresult (r : option RecognitionResult) (now : Z) (s : STT) : STT :=
  match r with
  | None => s
  | Some r =>
      if belowThreshold (res_confidence r) s then s
      else
        let s := emitTranscript (res_transcript r) (res_isFinal r)
                                (res_confidence r) now s in
        let s := if (negb (isTranscribing s) &&
                     detectWakeWord s (res_transcript r))%bool
                 then enableTranscriptionMode s else s in
        if (isTranscribing s && detectSleepWord s (res_transcript r))%bool
        then disableTranscriptionMode s else s
  end.

(** [event.error] as the [switch] of [onerror] tells it apart. *)
Inductive RecognitionErrorType :=
| err_network | err_not_allowed | err_permission_denied
| err_service_not_allowed | err_other.

Definition onerror (e : RecognitionErrorType) (s : STT) : STT :=
  match e with
  | err_network => handleNetworkError s
  | err_not_allowed | err_permission_denied =>
      setState Error (Some MsgAllowMicrophone) (Some permission_denied) s
  | err_service_not_allowed =>
      setState Error (Some MsgServiceNotAllowed) (Some service_not_allowed) s
  | err_other => handleNetworkError s
  end.

Definition onend (jitter : Z) (s : STT) : STT :=
  if (negb (STTState_eqb (currentState s) Stopped) && autoRestart (config s))%bool
  then scheduleRestart jitter s else s.

Definition onstart (s : STT) : STT :=
  setState Listening None None (set_restartAttempts 0 s).

(** [startListening] up to the [await] inside [checkMicrophoneAccess]. *)
Definition startListening (onLine : bool) (s : STT) : STT * Progress :=
  if (STTState_eqb (currentState s) Listening ||
      STTState_eqb (currentState s) Transcribing)%bool
  then (s, Settled Resolved)
  else if negb onLine
  then (setState Error (Some MsgNoInternet) (Some offline) s, Settled Resolved)
  else (s, Suspended).

(** From the answer of [getUserMedia] in [checkMicrophoneAccess] to the
    second [await]. *)
Definition startListening_afterMicrophone (granted apiAvailable : bool)
    (s : STT) : STT * Progress :=
  if negb granted
  then (setState Error (Some MsgMicrophoneRequired) (Some microphone_denied) s,
        Settled Resolved)
  else if recognition s then (s, Suspended)
  else match initRecognition apiAvailable s with
       | (s1, Throws) => (s1, Settled Rejected)
       | (s1, Returns) => (s1, Suspended)
       end.

(** From the answer of the second [getUserMedia] to the end; [startThrows]
    tells whether [recognition.start()] throws. *)
Definition startListening_afterStream (granted startThrows : bool)
    (s : STT) : STT * Outcome :=
  if negb granted
  then (setState Error (Some MsgMicrophoneDenied) (Some permission_denied) s,
        Rejected)
  else if recognition s
  then if startThrows
       then (setState Error (Some MsgMicrophoneDenied) (Some permission_denied) s,
             Rejected)
       else (setState Listening None None s, Resolved)
  else (s, Resolved).

(** [stopListening]; [stopThrows] tells whether [recognition.stop()]
    throws, which the [catch] only logs. *)
Definition stopListening (stopThrows : bool) (s : STT) : STT * Completion :=
  let s := clearRestartTimeout s in
  let s := setState Stopped None None s in
  let s := if recognition s
           then match (if stopThrows then Throws else Returns) with
                | Returns => set_recognition false s
                | Throws => set_recognition false s
                end
           else s in
  let s := set_isTranscribing false s in
  (set_restartAttempts 0 s, Returns).

(** ** The instance in its environment *)

(** What the awaiting caller does when the promise of [startListening]
    settles: only the timer closure of [handleNetworkError] reacts, to a
    rejection. *)
Definition settle (c : Caller) (o : Outcome) (s : STT) : STT :=
  match c, o with
  | ByNetworkTimer, Rejected =>
      if autoRestart (config s) then handleNetworkError s else s
  | _, _ => s
  end.

(** A call of [startListening] on behalf of [c]. *)
Definition callStartListening (c : Caller) (onLine : bool) (s : STT) : STT :=
  match startListening onLine s with
  | (s1, Settled o) => settle c o s1
  | (s1, Suspended) => suspend (AwaitMicrophone c) s1
  end.

(** The closure [scheduleRestart] hands to [setTimeout]. *)
Definition restartCallback (apiAvailable startThrows : bool) (jitter : Z)
    (s : STT) : STT :=
  if STTState_eqb (currentState s) Stopped then s
  else
    let (s1, c) := if recognition s then (s, Returns)
                   else initRecognition apiAvailable s in
    let c := match c with
             | Throws => Throws
             | Returns => if (recognition s1 && startThrows)%bool
                          then Throws else Returns
             end in
    match c with
    | Returns => s1
    | Throws =>
        if autoRestart (config s1) then scheduleRestart jitter s1
        else setState Error (Some MsgRestartFailed) (Some restart_failed) s1
    end.

(** The closure [handleNetworkError] hands to [setTimeout]; [onLine'] is
    the read inside [startListening]. *)
Definition networkCallback (onLine onLine' : bool) (s : STT) : STT :=
  if STTState_eqb (currentState s) Stopped then s
  else if negb onLine then handleNetworkError s
  else callStartListening ByNetworkTimer onLine' s.

(** What the environment hands to a piece it resumes. *)
Inductive Resumption :=
| ProbeDone (onLine onLine' : bool) (jitter : Z)
| MicrophoneAnswer (granted apiAvailable : bool)
| StreamAnswer (granted startThrows : bool).

Fixpoint removeNth {A : Type} (n : nat) (l : list A) : list A :=
  match n, l with
  | _, [] => []
  | O, _ :: r => r
  | S n', x :: r => x :: removeNth n' r
  end.

Definition resume (n : nat) (r : Resumption) (s : STT) : STT :=
  let s0 := set_pending (removeNth n (pending s)) s in
  match nth_error (pending s) n, r with
  | Some AfterProbe, ProbeDone onLine onLine' jitter =>
      handleNetworkError_afterProbe onLine onLine' jitter s0
  | Some (AwaitMicrophone c), MicrophoneAnswer granted apiAvailable =>
      match startListening_afterMicrophone granted apiAvailable s0 with
      | (s1, Settled o) => settle c o s1
      | (s1, Suspended) => suspend (AwaitStream c) s1
      end
  | Some (AwaitStream c), StreamAnswer granted startThrows =>
      let (s1, o) := startListening_afterStream granted startThrows s0 in
      settle c o s1
  | _, _ => s
  end.

Definition fireTimer (h : nat) (onLine onLine' apiAvailable startThrows : bool)
    (jitter : Z) (s : STT) : STT :=
  match find (fun t => Nat.eqb (handle t) h) (timers s) with
  | None => s
  | Some t =>
      let s0 := clearTimeout h s in
      match callback t with
      | RestartCallback => restartCallback apiAvailable startThrows jitter s0
      | NetworkCallback => networkCallback onLine onLine' s0
      end
  end.

(** The body shared by [onlineHandler] of the constructor and the one-shot
    [handleOnline] of [handleNetworkError]. *)
Definition onlineHandler (onLine : bool) (s : STT) : STT :=
  if (autoRestart (config s) && negb (STTState_eqb (currentState s) Stopped))%bool
  then callStartListening ByOnlineListener onLine s else s.

Fixpoint repeatHandler (n : nat) (onLine : bool) (s : STT) : STT :=
  match n with
  | O => s
  | S n' => repeatHandler n' onLine (onlineHandler onLine s)
  end.

(** The [online] event of the window: the listener of the constructor,
    then every one-shot listener, each of which is gone afterwards. *)
Definition dispatchOnline (onLine : bool) (s : STT) : STT :=
  let s1 := onlineHandler onLine s in
  repeatHandler (onlineOnce s1) onLine (set_onlineOnce 0 s1).

(** The [offline] event of the window: [offlineHandler]. *)
Definition offlineHandler (stopThrows : bool) (s : STT) : STT :=
  fst (stopListening stopThrows
         (setState Error (Some MsgConnectionLost) (Some offline) s)).

Definition checkBrowserSupport (supported fileProtocol : bool) (s : STT) : STT :=
  if negb supported
  then setState Error (Some MsgNotSupported) (Some not_supported) s
  else if fileProtocol
  then setState Error (Some MsgFileProtocol) (Some file_protocol) s
  else s.

Definition defaultWakeWords : list str := [lit "hi"; lit "hello"].
Definition defaultSleepWords : list str := [lit "bye"; lit "goodbye"].

Definition orElse {A : Type} (o : option A) (d : A) : A :=
  match o with
  | Some a => a
  | None => d
  end.

(** The constructor. An array is truthy even when empty, so [||] keeps
    every word list that is supplied. The two patterns are compiled before
    anything else is done; [None] is the constructor leaving by the
    [SyntaxError] of one of them. *)
Definition construct (o : WakeSleepSTTOptions) (supported fileProtocol : bool)
    (engine : Engine) : option STT :=
  let ww := orElse (opt_wakeWords o) defaultWakeWords in
  let sw := orElse (opt_sleepWords o) defaultSleepWords in
  match newRegExp engine ww, newRegExp engine sw with
  | Some wr, Some sr =>
      Some (checkBrowserSupport supported fileProtocol
              {| config :=
                   {| wakeWords := ww; sleepWords := sw;
                      wakeConfidenceThreshold :=
                        orElse (opt_wakeConfidenceThreshold o) 0%float;
                      autoRestart := orElse (opt_autoRestart o) true;
                      maxRestartAttempts := orElse (opt_maxRestartAttempts o) 5%Z;
                      wakeRegex := wr; sleepRegex := sr |};
                 onEventCallback := opt_onEvent o;
                 recognition := false;
                 currentState := Idle;
                 isTranscribing := false;
                 restartAttempts := 0;
                 restartTimeout := None;
                 timers := [];
                 nextHandle := 1;
                 onlineOnce := 0;
                 pending := [];
                 events := [] |})
  | _, _ => None
  end.

(** Everything that can happen to an instance: the public calls, the
    events of the adapter and of the window, a timer that fires and an
    [await] that completes. *)
Inductive Input :=
| CallStartListening (onLine : bool)
| CallStopListening (stopThrows : bool)
| CallEnableTranscription
| CallDisableTranscription
| CallOnEvent
| RecognitionResultEvent (r : option RecognitionResult) (now : Z)
| RecognitionErrorEvent (e : RecognitionErrorType)
| RecognitionEndEvent (jitter : Z)
| RecognitionStartEvent
| WindowOnline (onLine : bool)
| WindowOffline (stopThrows : bool)
| TimerFires (h : nat) (onLine onLine' apiAvailable startThrows : bool)
             (jitter : Z)
| Resume (n : nat) (r : Resumption).

Definition step (s : STT) (i : Input) : STT :=
  match i with
  | CallStartListening onLine => callStartListening ByUser onLine s
  | CallStopListening stopThrows => fst (stopListening stopThrows s)
  | CallEnableTranscription => enableTranscriptionModePublic s
  | CallDisableTranscription => disableTranscriptionModePublic s
  | CallOnEvent => onEvent s
  | RecognitionResultEvent r now => onresult r now s
  | RecognitionErrorEvent e => onerror e s
  | RecognitionEndEvent jitter => onend jitter s
  | RecognitionStartEvent => onstart s
  | WindowOnline onLine => dispatchOnline onLine s
  | WindowOffline stopThrows => offlineHandler stopThrows s
  | TimerFires h onLine onLine' apiAvailable startThrows jitter =>
      fireTimer h onLine onLine' apiAvailable startThrows jitter s
  | Resume n r => resume n r s
  end.

Definition run (s : STT) (l : list Input) : STT := fold_left step l s.

Inductive reachable : STT -> Prop :=
| reachable_new o supported fileProtocol engine s :
    construct o supported fileProtocol engine = Some s -> reachable s
| reachable_step s i : reachable s -> reachable (step s i).

(** [startListening] from call to settlement when nothing else happens in
    between, with what the environment answers on the way. *)
Record StartEnv := {
  env_onLine : bool;
  env_microphone : bool;
  env_apiAvailable : bool;
  env_stream : bool;
  env_startThrows : bool
}.

Definition startListening_run (e : StartEnv) (s : STT) : STT * Outcome :=
  match startListening (env_onLine e) s with
  | (s1, Settled o) => (s1, o)
  | (s1, Suspended) =>
      match startListening_afterMicrophone (env_microphone e)
                                           (env_apiAvailable e) s1 with
      | (s2, Settled o) => (s2, o)
      | (s2, Suspended) =>
          startListening_afterStream (env_stream e) (env_startThrows e) s2
      end
  end.

(** ** Notions of the specification *)

(** A phrase of plain words: literal text that begins and ends with a
    word character (so it is not empty). *)
Definition isPlainPhrase (p : str) : bool :=
  (forallb (fun c => negb (isSyntaxCharacter c)) p &&
   startsWithWordChar p && endsWithWordChar p)%bool.

(** No phrase of the list has a pattern character. *)
Definition areLiteral (P : list str) : bool :=
  forallb (fun p => forallb (fun c => negb (isSyntaxCharacter c)) p) P.

(** Follows the specification: matching is case-insensitive. *)
Definition sameIgnoringCase (a b : str) : Prop :=
  toLowerCase a = toLowerCase b.

(** Follows the specification: the phrase stands in the text as a whole
    word (or as a run of whole words), not inside a longer token: no word
    character touches it on either side. *)
Definition occursAsWholeWord (p text : str) : Prop :=
  exists pre w post,
    text = pre ++ w ++ post /\ sameIgnoringCase w p /\
    endsWithWordChar pre = false /\ startsWithWordChar post = false.

(** Follows the specification: [match(P, T)]. *)
Definition somePhraseOccurs (P : list str) (T : str) : Prop :=
  exists p, In p P /\ occursAsWholeWord p (normalizeTranscript T).

(** The Modes of the StateEvents of a log, and its TranscriptEvents. *)
Definition modesOf (l : list STTEvent) : list STTState :=
  flat_map (fun e => match e with
                     | StateEvent p => [state p]
                     | TranscriptEvent _ => []
                     end) l.

Definition transcriptsOf (l : list STTEvent) : list TranscriptPayload :=
  flat_map (fun e => match e with
                     | TranscriptEvent p => [p]
                     | StateEvent _ => []
                     end) l.

(** The code of the last StateEvent of a log. *)
Definition lastErrorCode (l : list STTEvent) : option ErrorCode :=
  match rev l with
  | StateEvent p :: _ => error p
  | _ => None
  end.

(** Options that leave every default in place and register a callback. *)
Definition defaultOptions : WakeSleepSTTOptions :=
  {| opt_wakeWords := None; opt_sleepWords := None; opt_onEvent := true;
     opt_wakeConfidenceThreshold := None; opt_autoRestart := None;
     opt_maxRestartAttempts := None |}.

(** Every live timer is the one [restartTimeout] names: the two
    [setTimeout] calls that arm a restart assign their handle to the field
    right after [clearRestartTimeout]. *)
Definition timersOwned (s : STT) : Prop :=
  forall t, In t (timers s) -> restartTimeout s = Some (handle t).

(** The restart counter stays within [0 .. maxRestartAttempts] when the
    configured maximum is a non-negative integer. *)
Definition attemptsBounded (s : STT) : Prop :=
  (0 <= maxRestartAttempts (config s) ->
   0 <= restartAttempts s <= maxRestartAttempts (config s))%Z.

(** An instance of configuration [c] in good order. *)
Definition inOrder (c : Config) (s : STT) : Prop :=
  config s = c /\ attemptsBounded s /\ timersOwned s.

(** The default options but for one field. *)
Definition noRetryOptions : WakeSleepSTTOptions :=
  {| opt_wakeWords := None; opt_sleepWords := None; opt_onEvent := true;
     opt_wakeConfidenceThreshold := None; opt_autoRestart := None;
     opt_maxRestartAttempts := Some 0%Z |}.

Definition halfConfidenceOptions : WakeSleepSTTOptions :=
  {| opt_wakeWords := None; opt_sleepWords := None; opt_onEvent := true;
     opt_wakeConfidenceThreshold := Some 0.5%float; opt_autoRestart := None;
     opt_maxRestartAttempts := None |}.

(** One wake word that closes the group of the pattern and opens another:
    the pattern is [\b()||()\b], three alternatives of which the second is
    empty. *)
Definition groupClosingOptions : WakeSleepSTTOptions :=
  {| opt_wakeWords := Some [lit ")||("]; opt_sleepWords := None;
     opt_onEvent := true; opt_wakeConfidenceThreshold := None;
     opt_autoRestart := None; opt_maxRestartAttempts := None |}.

(** An engine that knows the pattern [\b()||()\b] and compiles it as
    ECMAScript prescribes: the empty alternative matches at the first
    position of any text. *)
Definition emptyAlternativeEngine : Engine :=
  fun p =>
    if String.eqb (string_of_list_ascii p) "\b()||()\b"
    then Some (fun _ => true) else None.

Definition noWakeWordsOptions : WakeSleepSTTOptions :=
  {| opt_wakeWords := Some []; opt_sleepWords := None; opt_onEvent := true;
     opt_wakeConfidenceThreshold := None; opt_autoRestart := None;
     opt_maxRestartAttempts := None |}.

(** A start that succeeds: the network is up, the microphone is granted
    twice, the adapter is built and started and reports [start]. *)
Definition startUp : list Input :=
  [CallStartListening true; Resume 0 (MicrophoneAnswer true true);
   Resume 0 (StreamAnswer true false); RecognitionStartEvent].

(** The Mode is not Transcribing. *)
Definition notTranscribing (s : STT) : Prop := currentState s <> Transcribing.

(** A property of instances that the field updates of the class keep:
    every update but the one of [enableTranscriptionMode], which sets the
    Mode to Transcribing and the flag to true. *)
Class Frame (I : STT -> Prop) : Prop := {
  frame_onEventCallback v s : I s -> I (set_onEventCallback v s);
  frame_recognition v s : I s -> I (set_recognition v s);
  frame_onlineOnce v s : I s -> I (set_onlineOnce v s);
  frame_pending v s : I s -> I (set_pending v s);
  frame_events v s : I s -> I (set_events v s);
  frame_currentState st s :
    st <> Transcribing -> I s -> I (set_currentState st s);
  frame_isTranscribing s : I s -> I (set_isTranscribing false s);
  frame_reset s : I s -> I (set_restartAttempts 0 s);
  frame_increment s :
    I s -> (restartAttempts s <? maxRestartAttempts (config s))%Z = true ->
    I (set_restartAttempts (restartAttempts s + 1) s);
  frame_clearTimeout h s : I s -> I (clearTimeout h s);
  frame_clearRestartTimeout s : I s -> I (clearRestartTimeout s);
  frame_rearm cb d s : I s -> I (armRestartTimeout cb d (clearRestartTimeout s))
}.

(** ** Proof tools *)

(** The 256 code units, one by one. *)
Ltac each_ascii c :=
  destruct c as [[] [] [] [] [] [] [] []]; vm_compute; try reflexivity;
  try discriminate.

(** Every conditional of the goal, case by case. *)
Ltac break_conditionals :=
  repeat (simpl in *;
          match goal with
          | |- context [if ?b then _ else _] => destruct b eqn:?
          | |- context [match ?x with _ => _ end] => destruct x eqn:?
          end);
  simpl in *.

Create HintDb stt.

(** ** Properties of the text functions *)

Lemma toLowerChar_idem c : toLowerChar (toLowerChar c) = toLowerChar c.
Proof. each_ascii c. Qed.

Lemma toLowerChar_canonicalize c : toLowerChar (canonicalize c) = toLowerChar c.
Proof. each_ascii c. Qed.

Lemma canonicalize_toLowerChar c : canonicalize (toLowerChar c) = canonicalize c.
Proof. each_ascii c. Qed.

Lemma isWordChar_canonicalize c : isWordChar (canonicalize c) = isWordChar c.
Proof. each_ascii c. Qed.

Lemma canonicalize_eq_iff a b :
  canonicalize a = canonicalize b <-> toLowerChar a = toLowerChar b.
Proof.
  split; intro H.
  - rewrite <- (toLowerChar_canonicalize a), H. apply toLowerChar_canonicalize.
  - rewrite <- (canonicalize_toLowerChar a), H. apply canonicalize_toLowerChar.
Qed.

Lemma canonicalize_same_class a b :
  canonicalize a = canonicalize b -> isWordChar a = isWordChar b.
Proof.
  intro H. rewrite <- (isWordChar_canonicalize a), H.
  apply isWordChar_canonicalize.
Qed.

Lemma map_canonicalize_iff (a b : str) :
  map canonicalize a = map canonicalize b <-> toLowerCase a = toLowerCase b.
Proof.
  unfold toLowerCase. revert b.
  induction a as [|x a IH]; intros [|y b]; simpl; split; intro H;
    try reflexivity; try discriminate.
  - injection H as Hx Ht. f_equal.
    + now apply canonicalize_eq_iff.
    + now apply IH.
  - injection H as Hx Ht. f_equal.
    + now apply canonicalize_eq_iff.
    + now apply IH.
Qed.

Section Sublists.
Variable P : ascii -> Prop.

Lemma Forall_trimStart s : Forall P s -> Forall P (trimStart s).
Proof.
  induction 1 as [|c r Hc Hr IH]; simpl; [constructor|].
  destruct (isWhiteSpace c); [exact IH | now constructor].
Qed.

Lemma Forall_trim s : Forall P s -> Forall P (trim s).
Proof.
  intro H. unfold trim, trimEnd.
  apply Forall_rev, Forall_trimStart, Forall_rev, Forall_trimStart, H.
Qed.

Lemma Forall_stripPunctuation s : Forall P s -> Forall P (stripPunctuation s).
Proof.
  unfold stripPunctuation. rewrite !Forall_forall. intros H c Hc.
  apply filter_In in Hc. now apply H.
Qed.
End Sublists.

Lemma toLowerCase_fixed s :
  Forall (fun c => toLowerChar c = c) s -> toLowerCase s = s.
Proof.
  unfold toLowerCase. induction 1 as [|c r Hc _ IH]; simpl; congruence.
Qed.

Lemma stripPunctuation_fixed s :
  Forall (fun c => isPunctuation c = false) s -> stripPunctuation s = s.
Proof.
  unfold stripPunctuation. induction 1 as [|c r Hc _ IH]; simpl; [easy|].
  rewrite Hc. simpl. now rewrite IH.
Qed.

Lemma normalized_lower T :
  Forall (fun c => toLowerChar c = c) (normalizeTranscript T).
Proof.
  unfold normalizeTranscript.
  apply Forall_stripPunctuation, Forall_trim.
  unfold toLowerCase. apply Forall_forall. intros c Hc.
  apply in_map_iff in Hc. destruct Hc as [x [<- _]]. apply toLowerChar_idem.
Qed.

Lemma normalized_no_punctuation T :
  Forall (fun c => isPunctuation c = false) (normalizeTranscript T).
Proof.
  unfold normalizeTranscript, stripPunctuation.
  apply Forall_forall. intros c Hc. apply filter_In in Hc.
  destruct Hc as [_ Hc]. now destruct (isPunctuation c).
Qed.

(** C9, as the code has it: a second normalization only trims the result
    of the first, and the normalizer returns the empty string on the empty
    string. *)
Theorem normalize_twice_trims (T : str) :
  normalizeTranscript (normalizeTranscript T) = trim (normalizeTranscript T) /\
  normalizeTranscript [] = [].
Proof.
  split; [|reflexivity].
  unfold normalizeTranscript at 1.
  rewrite (toLowerCase_fixed _ (normalized_lower T)).
  apply stripPunctuation_fixed, Forall_trim, normalized_no_punctuation.
Qed.

(** C9 fails as stated on ["hi ."]: the first pass trims before it
    strips the full stop and leaves ["hi "], the second pass trims that
    to ["hi"]. *)
Lemma normalize_not_idempotent :
  normalizeTranscript (normalizeTranscript (lit "hi ."))
    <> normalizeTranscript (lit "hi .") /\
  normalizeTranscript (lit "hi .") = lit "hi " /\
  normalizeTranscript (normalizeTranscript (lit "hi .")) = lit "hi".
Proof.
  split; [|split]; vm_compute; [discriminate | reflexivity | reflexivity].
Qed.

(** ** Properties of the matcher *)

Lemma matchLiteral_sound alt : forall s w post,
  matchLiteral alt s = Some (w, post) ->
  s = w ++ post /\ map canonicalize alt = map canonicalize w.
Proof.
  induction alt as [|a alt IH]; intros s w post H; simpl in H.
  - injection H as <- <-. now split.
  - destruct s as [|c s]; [discriminate|].
    destruct (Ascii.eqb (canonicalize a) (canonicalize c)) eqn:E; [|discriminate].
    destruct (matchLiteral alt s) as [[w' post']|] eqn:M; [|discriminate].
    injection H as <- <-. apply IH in M. destruct M as [-> M].
    apply Ascii.eqb_eq in E. simpl. split; congruence.
Qed.

Lemma matchLiteral_complete alt : forall w post,
  map canonicalize alt = map canonicalize w ->
  matchLiteral alt (w ++ post) = Some (w, post).
Proof.
  induction alt as [|a alt IH]; intros [|c w] post H; simpl in *;
    try discriminate; [reflexivity|].
  injection H as Hc Ht. rewrite Hc, Ascii.eqb_refl.
  now rewrite (IH w post Ht).
Qed.

Lemma testFrom_true re : forall ahead passed,
  testFrom re passed ahead = true <->
  exists mid rest, ahead = mid ++ rest /\ matchAt re (passed ++ mid) rest = true.
Proof.
  induction ahead as [|c r IH]; intros passed; simpl.
  - rewrite orb_false_r. split.
    + intro H. exists [], []. split; [reflexivity | now rewrite app_nil_r].
    + intros [mid [rest [E H]]]. symmetry in E.
      apply app_eq_nil in E. destruct E as [-> ->].
      now rewrite app_nil_r in H.
  - rewrite orb_true_iff, IH. split.
    + intros [H | [mid [rest [-> H]]]].
      * exists [], (c :: r). split; [reflexivity | now rewrite app_nil_r].
      * exists (c :: mid), rest. rewrite <- app_assoc in H. split; [reflexivity | exact H].
    + intros [[|x mid] [rest [E H]]].
      * left. simpl in E. subst rest. now rewrite app_nil_r in H.
      * right. simpl in E. injection E as -> ->.
        exists mid, rest. rewrite <- app_assoc. split; [reflexivity | exact H].
Qed.

Lemma test_empty d : test (Literal d) [] = false.
Proof. reflexivity. Qed.

Lemma startsWithWordChar_app w post :
  w <> [] -> startsWithWordChar (w ++ post) = startsWithWordChar w.
Proof. destruct w; [congruence | reflexivity]. Qed.

Lemma endsWithWordChar_app pre w :
  w <> [] -> endsWithWordChar (pre ++ w) = endsWithWordChar w.
Proof.
  intro H. unfold endsWithWordChar. rewrite rev_app_distr.
  destruct (rev w) as [|c r] eqn:E; [|reflexivity].
  apply (f_equal (@rev ascii)) in E. rewrite rev_involutive in E.
  now subst w.
Qed.

Lemma startsWithWordChar_same a b :
  map canonicalize a = map canonicalize b ->
  startsWithWordChar a = startsWithWordChar b.
Proof.
  destruct a as [|x a], b as [|y b]; simpl; intro H;
    try discriminate; [reflexivity|].
  injection H as H _. now apply canonicalize_same_class.
Qed.

Lemma endsWithWordChar_same a b :
  map canonicalize a = map canonicalize b ->
  endsWithWordChar a = endsWithWordChar b.
Proof.
  intro H. apply (f_equal (@rev ascii)) in H. rewrite <- !map_rev in H.
  unfold endsWithWordChar.
  destruct (rev a) as [|x a'], (rev b) as [|y b']; simpl in H;
    try discriminate; [reflexivity|].
  injection H as H _. now apply canonicalize_same_class.
Qed.

Lemma startsWithWordChar_nonempty w : startsWithWordChar w = true -> w <> [].
Proof. destruct w; [discriminate | congruence]. Qed.

(** One alternative that is a plain phrase, at one position. *)
Lemma plain_alternative_at p pre rest :
  startsWithWordChar p = true -> endsWithWordChar p = true ->
  (isBoundary pre rest &&
   match matchLiteral p rest with
   | Some (w, post) => isBoundary (pre ++ w) post
   | None => false
   end = true)%bool <->
  exists w post, rest = w ++ post /\ sameIgnoringCase w p /\
                 endsWithWordChar pre = false /\ startsWithWordChar post = false.
Proof.
  intros Hs He. split.
  - intro H. apply andb_true_iff in H. destruct H as [Hb Hm].
    destruct (matchLiteral p rest) as [[w post]|] eqn:M; [|discriminate].
    apply matchLiteral_sound in M. destruct M as [-> Hc].
    assert (Hws : startsWithWordChar w = true)
      by now rewrite <- (startsWithWordChar_same _ _ Hc).
    assert (Hwe : endsWithWordChar w = true)
      by now rewrite <- (endsWithWordChar_same _ _ Hc).
    assert (Hw : w <> []) by now apply startsWithWordChar_nonempty.
    unfold isBoundary in Hb, Hm.
    rewrite (startsWithWordChar_app w post Hw), Hws in Hb.
    rewrite (endsWithWordChar_app _ w Hw), Hwe in Hm.
    exists w, post. repeat split.
    + unfold sameIgnoringCase. now apply map_canonicalize_iff.
    + now destruct (endsWithWordChar pre).
    + now destruct (startsWithWordChar post).
  - intros [w [post [-> [Hc [Hpre Hpost]]]]].
    apply map_canonicalize_iff in Hc. symmetry in Hc.
    assert (Hws : startsWithWordChar w = true)
      by now rewrite <- (startsWithWordChar_same _ _ Hc).
    assert (Hwe : endsWithWordChar w = true)
      by now rewrite <- (endsWithWordChar_same _ _ Hc).
    assert (Hw : w <> []) by now apply startsWithWordChar_nonempty.
    rewrite (matchLiteral_complete p w post Hc). unfold isBoundary.
    rewrite (startsWithWordChar_app w post Hw), Hws, (endsWithWordChar_app pre w Hw),
      Hwe, Hpre, Hpost.
    reflexivity.
Qed.

Lemma isPlainPhrase_inv p :
  isPlainPhrase p = true ->
  forallb (fun c => negb (isSyntaxCharacter c)) p = true /\
  startsWithWordChar p = true /\ endsWithWordChar p = true.
Proof.
  unfold isPlainPhrase. rewrite !andb_true_iff. tauto.
Qed.

(** The matcher of plain alternatives against any text. *)
Lemma test_plain_alternatives re text :
  forallb isPlainPhrase (alternatives re) = true ->
  test (Literal re) text = true <->
  exists p, In p (alternatives re) /\ occursAsWholeWord p text.
Proof.
  intro Hplain. rewrite forallb_forall in Hplain.
  unfold test. rewrite testFrom_true. simpl. split.
  - intros [mid [rest [-> H]]]. unfold matchAt in H.
    apply andb_true_iff in H. destruct H as [Hb H].
    apply existsb_exists in H. destruct H as [p [Hin H]].
    destruct (isPlainPhrase_inv _ (Hplain p Hin)) as [_ [Hs He]].
    assert (Hp : exists w post, rest = w ++ post /\ sameIgnoringCase w p /\
                 endsWithWordChar mid = false /\ startsWithWordChar post = false).
    { apply (plain_alternative_at p mid rest Hs He). now rewrite Hb, H. }
    destruct Hp as [w [post [-> Hp]]].
    exists p. split; [exact Hin|]. now exists mid, w, post.
  - intros [p [Hin [pre [w [post [-> Hp]]]]]].
    destruct (isPlainPhrase_inv _ (Hplain p Hin)) as [_ [Hs He]].
    exists pre, (w ++ post). split; [reflexivity|].
    assert (Hm : (isBoundary pre (w ++ post) &&
                  match matchLiteral p (w ++ post) with
                  | Some (w0, post0) => isBoundary (pre ++ w0) post0
                  | None => false
                  end)%bool = true).
    { apply (plain_alternative_at p pre (w ++ post) Hs He). now exists w, post. }
    apply andb_true_iff in Hm. destruct Hm as [Hb Hm].
    unfold matchAt. rewrite Hb. simpl. apply existsb_exists. now exists p.
Qed.

(** Plain phrases come back from the pattern source as they went in. *)
Lemma no_bar_in_plain p :
  forallb (fun c => negb (isSyntaxCharacter c)) p = true ->
  forallb (fun c => negb (Ascii.eqb c bar)) p = true.
Proof.
  rewrite !forallb_forall. intros H c Hc. specialize (H c Hc).
  destruct (Ascii.eqb c bar) eqn:E; [|reflexivity].
  apply Ascii.eqb_eq in E. subst c. discriminate.
Qed.

Lemma splitBar_app p rest :
  forallb (fun c => negb (Ascii.eqb c bar)) p = true ->
  splitBar (p ++ bar :: rest) = p :: splitBar rest.
Proof.
  induction p as [|c p IH]; simpl; intro H; [reflexivity|].
  apply andb_true_iff in H. destruct H as [Hc Hp].
  destruct (Ascii.eqb c bar); [discriminate|]. now rewrite (IH Hp).
Qed.

Lemma splitBar_single p :
  forallb (fun c => negb (Ascii.eqb c bar)) p = true -> splitBar p = [p].
Proof.
  induction p as [|c p IH]; simpl; intro H; [reflexivity|].
  apply andb_true_iff in H. destruct H as [Hc Hp].
  destruct (Ascii.eqb c bar); [discriminate|]. now rewrite (IH Hp).
Qed.

Lemma splitBar_join P :
  P <> [] ->
  forallb (fun p => forallb (fun c => negb (Ascii.eqb c bar)) p) P = true ->
  splitBar (join [bar] P) = P.
Proof.
  induction P as [|p P IH]; [congruence|]. intros _ H.
  simpl in H. apply andb_true_iff in H. destruct H as [Hp HP].
  destruct P as [|q P].
  - simpl. now apply splitBar_single.
  - change (join [bar] (p :: q :: P)) with (p ++ bar :: join [bar] (q :: P)).
    rewrite (splitBar_app p _ Hp). f_equal. apply IH; [discriminate | exact HP].
Qed.

Lemma join_literal P :
  forallb (fun p => forallb (fun c => negb (isSyntaxCharacter c)) p) P = true ->
  existsb (fun c => isSyntaxCharacter c && negb (Ascii.eqb c bar))%bool
          (join [bar] P) = false.
Proof.
  induction P as [|p P IH]; [reflexivity|]. intro H.
  simpl in H. apply andb_true_iff in H. destruct H as [Hp HP].
  assert (Hlit : existsb (fun c => isSyntaxCharacter c && negb (Ascii.eqb c bar))%bool
                         p = false).
  { clear - Hp. induction p as [|c p IHp]; [reflexivity|]. simpl in *.
    apply andb_true_iff in Hp. destruct Hp as [Hc Hp].
    destruct (isSyntaxCharacter c); [discriminate|]. simpl. now apply IHp. }
  destruct P as [|q P]; [exact Hlit|].
  change (join [bar] (p :: q :: P)) with (p ++ [bar] ++ join [bar] (q :: P)).
  rewrite !existsb_app, Hlit, (IH HP). reflexivity.
Qed.

(** Literal words never reach the engine. *)
Lemma newRegExp_literal engine P :
  areLiteral P = true ->
  newRegExp engine P
  = Some (Literal {| alternatives := splitBar (join [bar] P) |}).
Proof.
  intro Hlit. unfold newRegExp. now rewrite (join_literal P Hlit).
Qed.

Lemma plain_areLiteral P : forallb isPlainPhrase P = true -> areLiteral P = true.
Proof.
  intro Hplain. apply forallb_forall. intros p Hp.
  rewrite forallb_forall in Hplain. now apply isPlainPhrase_inv, Hplain.
Qed.

Lemma newRegExp_plain engine P :
  P <> [] -> forallb isPlainPhrase P = true ->
  newRegExp engine P = Some (Literal {| alternatives := P |}).
Proof.
  intros Hne Hplain. pose proof (plain_areLiteral P Hplain) as Hlit.
  rewrite (newRegExp_literal engine P Hlit), splitBar_join;
    [reflexivity | exact Hne |].
  apply forallb_forall. intros p Hp. apply no_bar_in_plain.
  unfold areLiteral in Hlit. rewrite forallb_forall in Hlit. now apply Hlit.
Qed.

(** A list of plain phrases that is not empty compiles, and its matcher
    accepts a normalized text exactly when some phrase stands in it as a
    whole word, whatever the case of the phrase. *)
Lemma newRegExp_accepts_whole_words engine (P : list str) :
  P <> [] -> forallb isPlainPhrase P = true ->
  exists re,
    newRegExp engine P = Some re /\
    (forall T, test re (normalizeTranscript T) = true <-> somePhraseOccurs P T).
Proof.
  intros Hne Hplain. exists (Literal {| alternatives := P |}).
  split; [now apply newRegExp_plain|].
  intro T. unfold somePhraseOccurs.
  now apply (test_plain_alternatives {| alternatives := P |}).
Qed.

(** C1 fails as stated on the empty phrase list, which the constructor
    keeps: its pattern is [\b()\b], and that accepts ["hi"] although the
    list holds no phrase. *)
Lemma empty_list_matches :
  (forall engine,
     newRegExp engine [] = Some (Literal {| alternatives := [[]] |})) /\
  test (Literal {| alternatives := [[]] |}) (normalizeTranscript (lit "hi"))
  = true /\
  ~ somePhraseOccurs [] (lit "hi") /\
  (exists s,
     construct noWakeWordsOptions true false rejecting = Some s /\
     detectWakeWord s (lit "hi") = true).
Proof.
  split; [reflexivity|]. split; [reflexivity|]. split.
  - intros [p [[] _]].
  - eexists. split; [reflexivity|]. vm_compute. reflexivity.
Qed.

(** ** Invariants of the instance *)

Lemma filter_none {A : Type} (f : A -> bool) (l : list A) :
  (forall x, In x l -> f x = false) -> filter f l = [].
Proof.
  induction l as [|a l IH]; intro H; simpl; [reflexivity|].
  rewrite (H a (or_introl eq_refl)). apply IH.
  intros x Hx. apply H. now right.
Qed.

(** What every framed property is kept by. *)
Section Framed.
Context (I : STT -> Prop) `{Frame I}.

Lemma framed_set_onEventCallback v s : I s -> I (set_onEventCallback v s).
Proof. apply frame_onEventCallback. Qed.

Lemma framed_set_recognition v s : I s -> I (set_recognition v s).
Proof. apply frame_recognition. Qed.

Lemma framed_set_onlineOnce v s : I s -> I (set_onlineOnce v s).
Proof. apply frame_onlineOnce. Qed.

Lemma framed_set_pending v s : I s -> I (set_pending v s).
Proof. apply frame_pending. Qed.

Lemma framed_set_events v s : I s -> I (set_events v s).
Proof. apply frame_events. Qed.

Lemma framed_set_isTranscribing s : I s -> I (set_isTranscribing false s).
Proof. apply frame_isTranscribing. Qed.

Lemma framed_reset s : I s -> I (set_restartAttempts 0 s).
Proof. apply frame_reset. Qed.

Lemma framed_clearTimeout h s : I s -> I (clearTimeout h s).
Proof. apply frame_clearTimeout. Qed.

Lemma framed_clearRestartTimeout s : I s -> I (clearRestartTimeout s).
Proof. apply frame_clearRestartTimeout. Qed.

Lemma framed_rearm cb d s :
  I s -> I (armRestartTimeout cb d (clearRestartTimeout s)).
Proof. apply frame_rearm. Qed.

Hint Resolve framed_set_onEventCallback framed_set_recognition
  framed_set_onlineOnce framed_set_pending framed_set_events
  framed_set_isTranscribing framed_reset framed_clearTimeout
  framed_clearRestartTimeout framed_rearm : stt.
Hint Extern 1 (_ <> Transcribing) => discriminate : stt.

Lemma framed_emitEvent e s : I s -> I (emitEvent e s).
Proof. intro Hs. unfold emitEvent. destruct (onEventCallback s); auto with stt. Qed.

Lemma framed_setState st m e s :
  st <> Transcribing -> I s -> I (setState st m e s).
Proof.
  intros Hst Hs. unfold setState. apply framed_emitEvent.
  now apply frame_currentState.
Qed.

Hint Resolve framed_emitEvent framed_setState : stt.

Lemma framed_emitTranscript t f x now s : I s -> I (emitTranscript t f x now s).
Proof. intro Hs. unfold emitTranscript. auto with stt. Qed.

Lemma framed_suspend k s : I s -> I (suspend k s).
Proof. intro Hs. unfold suspend. auto with stt. Qed.

Hint Resolve framed_emitTranscript framed_suspend : stt.

Lemma framed_handleNetworkError s : I s -> I (handleNetworkError s).
Proof. intro Hs. unfold handleNetworkError. break_conditionals; auto with stt. Qed.

Lemma framed_scheduleRestart jitter s : I s -> I (scheduleRestart jitter s).
Proof.
  intro Hs. unfold scheduleRestart.
  destruct (Z.geb (restartAttempts s) (maxRestartAttempts (config s))) eqn:E;
    [auto with stt|].
  apply framed_rearm, framed_setState; [discriminate|].
  apply frame_increment; [exact Hs|].
  rewrite Z.geb_leb in E. apply Z.leb_gt in E. now apply Z.ltb_lt.
Qed.

Lemma framed_handleNetworkError_afterProbe onLine onLine' jitter s :
  I s -> I (handleNetworkError_afterProbe onLine onLine' jitter s).
Proof.
  intro Hs. unfold handleNetworkError_afterProbe.
  destruct onLine; simpl; [|auto with stt].
  set (s1 := if recognition s then set_recognition false s else s).
  assert (H1 : I s1) by (unfold s1; destruct (recognition s); auto with stt).
  clearbody s1.
  destruct (autoRestart (config s1) &&
            (restartAttempts s1 <? maxRestartAttempts (config s1))%Z)%bool eqn:E;
    [|auto with stt].
  apply andb_true_iff in E. destruct E as [_ E].
  pose proof (frame_increment s1 H1 E) as H2.
  destruct onLine'; simpl; auto with stt.
Qed.

Hint Resolve framed_handleNetworkError framed_scheduleRestart
  framed_handleNetworkError_afterProbe : stt.

Lemma framed_initRecognition api s : I s -> I (fst (initRecognition api s)).
Proof. intro Hs. unfold initRecognition. break_conditionals; auto with stt. Qed.

Lemma framed_settle cl o s : I s -> I (settle cl o s).
Proof. intro Hs. unfold settle. break_conditionals; auto with stt. Qed.

Hint Resolve framed_initRecognition framed_settle : stt.

Lemma framed_callStartListening cl onLine s :
  I s -> I (callStartListening cl onLine s).
Proof.
  intro Hs. unfold callStartListening, startListening.
  break_conditionals; auto with stt.
Qed.

Hint Resolve framed_callStartListening : stt.

Lemma framed_restartCallback api thr jitter s :
  I s -> I (restartCallback api thr jitter s).
Proof.
  intro Hs. unfold restartCallback, initRecognition.
  break_conditionals; auto with stt.
Qed.

Lemma framed_networkCallback onLine onLine' s :
  I s -> I (networkCallback onLine onLine' s).
Proof. intro Hs. unfold networkCallback. break_conditionals; auto with stt. Qed.

Hint Resolve framed_restartCallback framed_networkCallback : stt.

Lemma framed_resume n r s : I s -> I (resume n r s).
Proof.
  intro Hs. unfold resume, startListening_afterMicrophone,
    startListening_afterStream, initRecognition.
  break_conditionals; auto 7 with stt.
Qed.

Lemma framed_fireTimer h o o' api thr jitter s :
  I s -> I (fireTimer h o o' api thr jitter s).
Proof. intro Hs. unfold fireTimer. break_conditionals; auto with stt. Qed.

Lemma framed_onlineHandler onLine s : I s -> I (onlineHandler onLine s).
Proof. intro Hs. unfold onlineHandler. break_conditionals; auto with stt. Qed.

Hint Resolve framed_onlineHandler : stt.

Lemma framed_repeatHandler n onLine : forall s,
  I s -> I (repeatHandler n onLine s).
Proof. induction n as [|n IH]; intros s Hs; simpl; auto with stt. Qed.

Lemma framed_dispatchOnline onLine s : I s -> I (dispatchOnline onLine s).
Proof.
  intro Hs. unfold dispatchOnline. apply framed_repeatHandler. auto with stt.
Qed.

Lemma framed_stopListening thr s : I s -> I (fst (stopListening thr s)).
Proof.
  intro Hs. unfold stopListening. break_conditionals; auto 8 with stt.
Qed.

Hint Resolve framed_stopListening : stt.

Lemma framed_offlineHandler thr s : I s -> I (offlineHandler thr s).
Proof. intro Hs. unfold offlineHandler. auto with stt. Qed.

Lemma framed_disableTranscriptionMode s : I s -> I (disableTranscriptionMode s).
Proof.
  intro Hs. unfold disableTranscriptionMode. break_conditionals; auto with stt.
Qed.

Lemma framed_onerror e s : I s -> I (onerror e s).
Proof. intro Hs. destruct e; simpl; auto with stt. Qed.

Lemma framed_onend jitter s : I s -> I (onend jitter s).
Proof. intro Hs. unfold onend. break_conditionals; auto with stt. Qed.

Lemma framed_onstart s : I s -> I (onstart s).
Proof. intro Hs. unfold onstart. auto with stt. Qed.

(** Every input but the two that can call [enableTranscriptionMode]. *)
Lemma framed_step s i :
  I s ->
  match i with
  | CallEnableTranscription | RecognitionResultEvent _ _ => True
  | _ => I (step s i)
  end.
Proof.
  intro Hs. destruct i; simpl; try exact Logic.I.
  - now apply framed_callStartListening.
  - now apply framed_stopListening.
  - now apply framed_disableTranscriptionMode.
  - now apply framed_set_onEventCallback.
  - now apply framed_onerror.
  - now apply framed_onend.
  - now apply framed_onstart.
  - now apply framed_dispatchOnline.
  - now apply framed_offlineHandler.
  - now apply framed_fireTimer.
  - now apply framed_resume.
Qed.
End Framed.

(** ** The two framed properties *)

Lemma clearRestartTimeout_timers s :
  timersOwned s -> timers (clearRestartTimeout s) = [].
Proof.
  intro Ho. unfold clearRestartTimeout.
  destruct (restartTimeout s) as [h|] eqn:E; simpl.
  - apply filter_none. intros t Ht.
    specialize (Ho t Ht). rewrite E in Ho. injection Ho as ->.
    now rewrite Nat.eqb_refl.
  - unfold timersOwned in Ho. destruct (timers s) as [|t l]; [reflexivity|].
    specialize (Ho t (or_introl eq_refl)). congruence.
Qed.

Lemma clearRestartTimeout_field s : restartTimeout (clearRestartTimeout s) = None.
Proof. unfold clearRestartTimeout. now destruct (restartTimeout s) eqn:E. Qed.

Lemma clearRestartTimeout_config s : config (clearRestartTimeout s) = config s.
Proof. unfold clearRestartTimeout. now destruct (restartTimeout s). Qed.

Lemma clearRestartTimeout_attempts s :
  restartAttempts (clearRestartTimeout s) = restartAttempts s.
Proof. unfold clearRestartTimeout. now destruct (restartTimeout s). Qed.

Lemma clearRestartTimeout_currentState s :
  currentState (clearRestartTimeout s) = currentState s.
Proof. unfold clearRestartTimeout. now destruct (restartTimeout s). Qed.

#[export] Instance inOrder_Frame (c : Config) : Frame (inOrder c).
Proof.
  split.
  - intros v s Hs. exact Hs.
  - intros v s Hs. exact Hs.
  - intros v s Hs. exact Hs.
  - intros v s Hs. exact Hs.
  - intros v s Hs. exact Hs.
  - intros st s _ Hs. exact Hs.
  - intros s Hs. exact Hs.
  - intros s [Hc [Hb Ho]]. split; [exact Hc|]. split; [|exact Ho].
    intro H0. simpl in *. lia.
  - intros s [Hc [Hb Ho]] Hlt. apply Z.ltb_lt in Hlt.
    split; [exact Hc|]. split; [|exact Ho].
    intro H0. specialize (Hb H0). simpl in *. lia.
  - intros h s [Hc [Hb Ho]]. split; [exact Hc|]. split; [exact Hb|].
    intros t Ht. simpl in Ht. apply filter_In in Ht. now apply Ho.
  - intros s [Hc [Hb Ho]]. split; [|split].
    + now rewrite clearRestartTimeout_config.
    + unfold attemptsBounded.
      now rewrite clearRestartTimeout_config, clearRestartTimeout_attempts.
    + intros t Ht. rewrite (clearRestartTimeout_timers s Ho) in Ht. destruct Ht.
  - intros cb d s [Hc [Hb Ho]].
    unfold armRestartTimeout, setTimeout. split; [|split].
    + simpl. now rewrite clearRestartTimeout_config.
    + unfold attemptsBounded. simpl.
      now rewrite clearRestartTimeout_config, clearRestartTimeout_attempts.
    + intros t Hin. simpl in Hin. rewrite (clearRestartTimeout_timers s Ho) in Hin.
      destruct Hin as [<- | []]. reflexivity.
Qed.

#[export] Instance notTranscribing_Frame : Frame notTranscribing.
Proof.
  split.
  - intros v s Hs. exact Hs.
  - intros v s Hs. exact Hs.
  - intros v s Hs. exact Hs.
  - intros v s Hs. exact Hs.
  - intros v s Hs. exact Hs.
  - intros st s Hst _. exact Hst.
  - intros s Hs. exact Hs.
  - intros s Hs. exact Hs.
  - intros s Hs _. exact Hs.
  - intros h s Hs. exact Hs.
  - intros s Hs. unfold notTranscribing.
    now rewrite clearRestartTimeout_currentState.
  - intros cb d s Hs. unfold notTranscribing, armRestartTimeout, setTimeout.
    simpl. now rewrite clearRestartTimeout_currentState.
Qed.

Lemma inOrder_enableTranscriptionMode c s :
  inOrder c s -> inOrder c (enableTranscriptionMode s).
Proof.
  intro H. unfold enableTranscriptionMode, setState, emitEvent.
  break_conditionals; exact H.
Qed.

Lemma inOrder_onresult c r now s : inOrder c s -> inOrder c (onresult r now s).
Proof.
  intro H. unfold onresult. destruct r as [r|]; [|exact H].
  destruct (belowThreshold (res_confidence r) s); [exact H|].
  assert (H1 : inOrder c (emitTranscript (res_transcript r) (res_isFinal r)
                                         (res_confidence r) now s))
    by now apply framed_emitTranscript; [apply inOrder_Frame|].
  set (s1 := emitTranscript _ _ _ _ s) in *. clearbody s1.
  set (s2 := if (negb (isTranscribing s1) && detectWakeWord s1 (res_transcript r))%bool
             then enableTranscriptionMode s1 else s1).
  assert (H2 : inOrder c s2).
  { unfold s2. destruct (negb (isTranscribing s1) && _)%bool;
      [now apply inOrder_enableTranscriptionMode | exact H1]. }
  clearbody s2.
  destruct (isTranscribing s2 && detectSleepWord s2 (res_transcript r))%bool;
    [|exact H2].
  now apply framed_disableTranscriptionMode; [apply inOrder_Frame|].
Qed.

Lemma inOrder_step c s i : inOrder c s -> inOrder c (step s i).
Proof.
  intro H. pose proof (framed_step (inOrder c) s i H) as Hi.
  destruct i; try exact Hi.
  - now apply inOrder_enableTranscriptionMode.
  - now apply inOrder_onresult.
Qed.

Lemma inOrder_checkBrowserSupport c supported fileProtocol s :
  inOrder c s -> inOrder c (checkBrowserSupport supported fileProtocol s).
Proof.
  intro H. unfold checkBrowserSupport.
  destruct (negb supported);
    [apply framed_setState; [apply inOrder_Frame | discriminate | exact H]|].
  destruct fileProtocol;
    [apply framed_setState; [apply inOrder_Frame | discriminate | exact H]
    | exact H].
Qed.

Lemma inOrder_construct o supported fileProtocol engine s :
  construct o supported fileProtocol engine = Some s -> inOrder (config s) s.
Proof.
  unfold construct. intro H.
  destruct (newRegExp engine (orElse (opt_wakeWords o) defaultWakeWords)) as [wr|];
    [|discriminate].
  destruct (newRegExp engine (orElse (opt_sleepWords o) defaultSleepWords)) as [sr|];
    [|discriminate].
  injection H as <-.
  match goal with
  | |- inOrder _ (checkBrowserSupport _ _ ?s0) =>
      assert (H0 : inOrder (config s0) s0);
      [ split; [reflexivity|]; split; [intro Hm; simpl in *; lia | intros t []]
      | pose proof (inOrder_checkBrowserSupport _ supported fileProtocol _ H0) as H1;
        rewrite (proj1 H1); exact H1 ]
  end.
Qed.

(** Every state an instance can reach is in good order for its own
    configuration. *)
Lemma reachable_inOrder s : reachable s -> inOrder (config s) s.
Proof.
  induction 1 as [o supported fileProtocol engine s H | s i _ IH].
  - now apply (inOrder_construct o supported fileProtocol engine).
  - pose proof (inOrder_step (config s) s i IH) as H1.
    rewrite (proj1 H1). exact H1.
Qed.

Lemma reachable_run l : forall s, reachable s -> reachable (run s l).
Proof.
  induction l as [|i l IH]; intros s H; [exact H|].
  apply IH. now apply reachable_step.
Qed.

(** What [setState] leaves alone, and what it sets. *)
Lemma setState_currentState st m e s : currentState (setState st m e s) = st.
Proof. unfold setState, emitEvent. simpl. now destruct (onEventCallback s). Qed.

Lemma setState_timers st m e s : timers (setState st m e s) = timers s.
Proof. unfold setState, emitEvent. simpl. now destruct (onEventCallback s). Qed.

Lemma setState_restartTimeout st m e s :
  restartTimeout (setState st m e s) = restartTimeout s.
Proof. unfold setState, emitEvent. simpl. now destruct (onEventCallback s). Qed.

Lemma setState_restartAttempts st m e s :
  restartAttempts (setState st m e s) = restartAttempts s.
Proof. unfold setState, emitEvent. simpl. now destruct (onEventCallback s). Qed.

Lemma setState_onlineOnce st m e s : onlineOnce (setState st m e s) = onlineOnce s.
Proof. unfold setState, emitEvent. simpl. now destruct (onEventCallback s). Qed.

Lemma setState_config st m e s : config (setState st m e s) = config s.
Proof. unfold setState, emitEvent. simpl. now destruct (onEventCallback s). Qed.

Lemma setState_isTranscribing st m e s :
  isTranscribing (setState st m e s) = isTranscribing s.
Proof. unfold setState, emitEvent. simpl. now destruct (onEventCallback s). Qed.

Lemma setState_events st m e s :
  onEventCallback s = true ->
  events (setState st m e s) =
  events s ++ [StateEvent {| state := st; message := m; error := e |}].
Proof. intro H. unfold setState, emitEvent. simpl. now rewrite H. Qed.

(** ** Stream failures *)

Lemma handleNetworkError_skips s :
  currentState s = Error -> handleNetworkError s = s.
Proof. intro H. unfold handleNetworkError. now rewrite H. Qed.

(** C10: when the Mode is already Error, [handleNetworkError] returns the
    instance as it found it, so nothing is emitted and the Mode, the
    restart counter, the timer handle and the suspended pieces stay as
    they were; the two network-class branches of [onerror] are this call. *)
Theorem handleNetworkError_in_error_is_noop (s : STT) :
  currentState s = Error ->
  handleNetworkError s = s /\
  onerror err_network s = s /\
  onerror err_other s = s.
Proof.
  intro H. unfold onerror, handleNetworkError. now rewrite H.
Qed.

Lemma handleNetworkError_in_error_is_noop_witness :
  exists s,
    construct defaultOptions false false rejecting = Some s /\
    currentState s = Error /\
    handleNetworkError s = s /\
    onerror err_network s = s /\
    onerror err_other s = s.
Proof.
  eexists. split; [reflexivity|]. split; [reflexivity|].
  apply handleNetworkError_in_error_is_noop. reflexivity.
Defined.

(** A second network-class error that arrives while the first is being
    handled changes nothing. *)
Lemma handleNetworkError_coalesces s :
  handleNetworkError (handleNetworkError s) = handleNetworkError s.
Proof.
  destruct (STTState_eqb (currentState s) Error) eqn:E.
  - unfold handleNetworkError. now rewrite !E.
  - assert (Hs : handleNetworkError s =
                 suspend AfterProbe
                   (setState Error (Some MsgConnecting) (Some network_connecting) s))
      by (unfold handleNetworkError; now rewrite E).
    rewrite Hs. apply handleNetworkError_skips.
    unfold suspend. simpl. apply setState_currentState.
Qed.

(** C4, as the code has it: the restart counter of a reachable instance
    never exceeds a non-negative [maxRestartAttempts]; once it has reached
    the maximum, [scheduleRestart] arms no timer and settles the Mode into
    Error with code [max-attempts-reached], and [handleNetworkError] (with
    the network up) arms no timer either and settles the Mode into Error
    with code [network]. *)
Theorem restart_counter_capped (s : STT) :
  reachable s ->
  (0 <= maxRestartAttempts (config s))%Z ->
  (restartAttempts s <= maxRestartAttempts (config s))%Z /\
  (restartAttempts s = maxRestartAttempts (config s) ->
   forall jitter onLine',
     scheduleRestart jitter s =
       setState Error (Some (MsgCouldNotConnect (maxRestartAttempts (config s))))
                (Some max_attempts_reached) s /\
     timers (scheduleRestart jitter s) = timers s /\
     currentState (scheduleRestart jitter s) = Error /\
     restartAttempts (scheduleRestart jitter s) = restartAttempts s /\
     handleNetworkError_afterProbe true onLine' jitter s =
       setState Error (Some (MsgUnableToConnect onLine')) (Some network)
                (if recognition s then set_recognition false s else s) /\
     timers (handleNetworkError_afterProbe true onLine' jitter s) = timers s /\
     currentState (handleNetworkError_afterProbe true onLine' jitter s) = Error /\
     restartAttempts (handleNetworkError_afterProbe true onLine' jitter s) =
       restartAttempts s).
Proof.
  intros Hr Hmax. destruct (reachable_inOrder s Hr) as [_ [Hb _]].
  split; [apply (Hb Hmax)|]. intros Heq jitter onLine'.
  assert (Es : scheduleRestart jitter s =
               setState Error (Some (MsgCouldNotConnect (maxRestartAttempts (config s))))
                        (Some max_attempts_reached) s).
  { unfold scheduleRestart. rewrite Heq, Z.geb_leb, Z.leb_refl. reflexivity. }
  assert (En : handleNetworkError_afterProbe true onLine' jitter s =
               setState Error (Some (MsgUnableToConnect onLine')) (Some network)
                        (if recognition s then set_recognition false s else s)).
  { unfold handleNetworkError_afterProbe. simpl.
    destruct (recognition s); simpl; rewrite Heq, Z.ltb_irrefl, andb_false_r;
      reflexivity. }
  rewrite Es, En, !setState_timers, !setState_currentState,
    !setState_restartAttempts.
  repeat split; destruct (recognition s); reflexivity.
Qed.

Lemma restart_counter_capped_witness :
  exists s,
    construct noRetryOptions true false rejecting = Some s /\
    (0 <= maxRestartAttempts (config s))%Z /\
    restartAttempts s = maxRestartAttempts (config s) /\
    (restartAttempts s <= maxRestartAttempts (config s))%Z /\
    (restartAttempts s = maxRestartAttempts (config s) ->
     forall jitter onLine',
       scheduleRestart jitter s =
         setState Error (Some (MsgCouldNotConnect (maxRestartAttempts (config s))))
                  (Some max_attempts_reached) s /\
       timers (scheduleRestart jitter s) = timers s /\
       currentState (scheduleRestart jitter s) = Error /\
       restartAttempts (scheduleRestart jitter s) = restartAttempts s /\
       handleNetworkError_afterProbe true onLine' jitter s =
         setState Error (Some (MsgUnableToConnect onLine')) (Some network)
                  (if recognition s then set_recognition false s else s) /\
       timers (handleNetworkError_afterProbe true onLine' jitter s) = timers s /\
       currentState (handleNetworkError_afterProbe true onLine' jitter s) = Error /\
       restartAttempts (handleNetworkError_afterProbe true onLine' jitter s) =
         restartAttempts s).
Proof.
  eexists. split; [reflexivity|]. split; [simpl; lia|]. split; [reflexivity|].
  apply restart_counter_capped.
  - apply (reachable_new noRetryOptions true false rejecting). reflexivity.
  - simpl. lia.
Defined.

(** C4 fails as stated on the network path. With [maxRestartAttempts: 0]
    the counter of a listening instance stands at the maximum; a stream
    error [network], handled with the network up, settles the Mode into
    Error with code [network], not [max-attempts-reached]. *)
Lemma network_path_reports_network :
  exists s0,
    construct noRetryOptions true false rejecting = Some s0 /\
    exists s s',
      s = run s0 startUp /\
      s' = run s [RecognitionErrorEvent err_network;
                  Resume 0 (ProbeDone true true 7)] /\
      currentState s = Listening /\
      restartAttempts s = maxRestartAttempts (config s) /\
      currentState s' = Error /\
      timers s' = [] /\
      lastErrorCode (events s') = Some network /\
      lastErrorCode (events s') <> Some max_attempts_reached.
Proof.
  eexists. split; [reflexivity|]. eexists. eexists.
  split; [reflexivity|]. split; [reflexivity|].
  vm_compute. repeat split; discriminate.
Qed.

(** ** Stopping *)

(** C5: whatever state the instance has reached, after [stopListening]
    the Mode is Stopped, no timer is live and the handle field is null,
    the restart counter is 0 and the transcription flag is false; the call
    returns normally even when [recognition.stop()] throws. *)
Theorem stopListening_resets (stopThrows : bool) (s : STT) :
  reachable s ->
  snd (stopListening stopThrows s) = Returns /\
  currentState (fst (stopListening stopThrows s)) = Stopped /\
  timers (fst (stopListening stopThrows s)) = [] /\
  restartTimeout (fst (stopListening stopThrows s)) = None /\
  restartAttempts (fst (stopListening stopThrows s)) = 0%Z /\
  isTranscribing (fst (stopListening stopThrows s)) = false /\
  recognition (fst (stopListening stopThrows s)) = false.
Proof.
  intro Hr. destruct (reachable_inOrder s Hr) as [_ [_ Ho]].
  pose proof (clearRestartTimeout_timers s Ho) as Ht.
  pose proof (clearRestartTimeout_field s) as Hf.
  unfold stopListening. simpl.
  set (s1 := setState Stopped None None (clearRestartTimeout s)).
  assert (H1 : currentState s1 = Stopped) by apply setState_currentState.
  assert (H2 : timers s1 = []) by (unfold s1; now rewrite setState_timers).
  assert (H3 : restartTimeout s1 = None)
    by (unfold s1; now rewrite setState_restartTimeout).
  clearbody s1.
  destruct (recognition s1) eqn:Er; destruct stopThrows; simpl;
    repeat split; assumption.
Qed.

Lemma stopListening_resets_witness :
  exists s0 s,
    construct defaultOptions true false rejecting = Some s0 /\
    s = run s0 (startUp ++
                [RecognitionResultEvent
                   (Some {| res_transcript := lit "hello"; res_isFinal := true;
                            res_confidence := None |}) 0;
                 RecognitionEndEvent 7]) /\
    reachable s /\
    (currentState s = Error /\ timers s <> [] /\ restartAttempts s = 1%Z /\
     isTranscribing s = true) /\
    snd (stopListening true s) = Returns /\
    currentState (fst (stopListening true s)) = Stopped /\
    timers (fst (stopListening true s)) = [] /\
    restartTimeout (fst (stopListening true s)) = None /\
    restartAttempts (fst (stopListening true s)) = 0%Z /\
    isTranscribing (fst (stopListening true s)) = false /\
    recognition (fst (stopListening true s)) = false.
Proof.
  eexists. eexists. split; [reflexivity|]. split; [reflexivity|].
  match goal with
  | |- reachable ?s /\ _ =>
      assert (Hr : reachable s)
        by (apply reachable_run, (reachable_new defaultOptions true false rejecting);
            reflexivity)
  end.
  split; [exact Hr|]. split.
  - vm_compute. repeat split. discriminate.
  - apply stopListening_resets. exact Hr.
Defined.

(** ** Recognition results *)

Lemma transcriptsOf_app l1 l2 :
  transcriptsOf (l1 ++ l2) = transcriptsOf l1 ++ transcriptsOf l2.
Proof. apply flat_map_app. Qed.

Lemma modesOf_app l1 l2 : modesOf (l1 ++ l2) = modesOf l1 ++ modesOf l2.
Proof. apply flat_map_app. Qed.

Lemma setState_transcripts st m e s :
  transcriptsOf (events (setState st m e s)) = transcriptsOf (events s).
Proof.
  unfold setState, emitEvent. simpl. destruct (onEventCallback s); simpl;
    [|reflexivity].
  rewrite transcriptsOf_app. simpl. apply app_nil_r.
Qed.

Lemma enableTranscriptionMode_transcripts s :
  transcriptsOf (events (enableTranscriptionMode s)) = transcriptsOf (events s).
Proof.
  unfold enableTranscriptionMode. destruct (negb (isTranscribing s));
    [|reflexivity].
  now rewrite setState_transcripts.
Qed.

Lemma disableTranscriptionMode_transcripts s :
  transcriptsOf (events (disableTranscriptionMode s)) = transcriptsOf (events s).
Proof.
  unfold disableTranscriptionMode. destruct (isTranscribing s); [|reflexivity].
  now rewrite setState_transcripts.
Qed.

(** The handler once the confidence gate is passed. *)
Lemma onresult_accepted r now s :
  belowThreshold (res_confidence r) s = false ->
  onresult (Some r) now s =
  let s1 := emitTranscript (res_transcript r) (res_isFinal r)
                           (res_confidence r) now s in
  let s2 := if (negb (isTranscribing s1) &&
                detectWakeWord s1 (res_transcript r))%bool
            then enableTranscriptionMode s1 else s1 in
  if (isTranscribing s2 && detectSleepWord s2 (res_transcript r))%bool
  then disableTranscriptionMode s2 else s2.
Proof. intro H. unfold onresult. now rewrite H. Qed.

(** C2, as the code has it: a result whose confidence is present, is
    neither zero nor NaN, and lies strictly below the threshold leaves the
    instance untouched (no event, no matching); every other result puts
    exactly one TranscriptEvent into the log of the callback, whatever the
    Mode; an absent confidence and a confidence of zero are never below
    the threshold. *)
Theorem onresult_confidence_gate (r : RecognitionResult) (now : Z) (s : STT) :
  (forall x, res_confidence r = Some x -> truthy x = true ->
             PrimFloat.ltb x (wakeConfidenceThreshold (config s)) = true ->
             onresult (Some r) now s = s) /\
  (belowThreshold (res_confidence r) s = false ->
   onEventCallback s = true ->
   transcriptsOf (events (onresult (Some r) now s)) =
   transcriptsOf (events s) ++
   [{| transcript := res_transcript r; isFinal := res_isFinal r;
       confidence := res_confidence r; timestamp := now |}]) /\
  belowThreshold None s = false /\
  belowThreshold (Some 0%float) s = false.
Proof.
  split; [|split; [|split]].
  - intros x Hx Ht Hl. unfold onresult, belowThreshold. now rewrite Hx, Ht, Hl.
  - intros Hb Hcb. rewrite (onresult_accepted r now s Hb). cbv zeta.
    set (s1 := emitTranscript _ _ _ _ s).
    assert (H1 : transcriptsOf (events s1) =
                 transcriptsOf (events s) ++
                 [{| transcript := res_transcript r; isFinal := res_isFinal r;
                     confidence := res_confidence r; timestamp := now |}]).
    { unfold s1, emitTranscript, emitEvent. rewrite Hcb. simpl.
      now rewrite transcriptsOf_app. }
    clearbody s1.
    set (s2 := if (negb (isTranscribing s1) && _)%bool
               then enableTranscriptionMode s1 else s1).
    assert (H2 : transcriptsOf (events s2) = transcriptsOf (events s1)).
    { unfold s2. destruct (negb (isTranscribing s1) && _)%bool;
        [apply enableTranscriptionMode_transcripts | reflexivity]. }
    clearbody s2.
    destruct (isTranscribing s2 && _)%bool;
      [rewrite disableTranscriptionMode_transcripts|]; congruence.
  - reflexivity.
  - reflexivity.
Qed.

Lemma onresult_confidence_gate_witness :
  exists s0 s,
    construct halfConfidenceOptions true false rejecting = Some s0 /\
    s = run s0 startUp /\
    belowThreshold (Some 0.25%float) s = true /\
    belowThreshold (Some 0.75%float) s = false /\
    onEventCallback s = true /\
    onresult (Some {| res_transcript := lit "hello"; res_isFinal := true;
                      res_confidence := Some 0.25%float |}) 9 s = s /\
    transcriptsOf
      (events (onresult (Some {| res_transcript := lit "hello";
                                 res_isFinal := true;
                                 res_confidence := Some 0.75%float |}) 9 s)) =
    transcriptsOf (events s) ++
    [{| transcript := lit "hello"; isFinal := true;
        confidence := Some 0.75%float; timestamp := 9 |}].
Proof.
  eexists. eexists. split; [reflexivity|]. split; [reflexivity|].
  split; [reflexivity|]. split; [reflexivity|]. split; [reflexivity|]. split.
  - match goal with
    | |- onresult (Some ?r) ?n ?s = ?s =>
        apply (proj1 (onresult_confidence_gate r n s) 0.25%float);
          reflexivity
    end.
  - match goal with
    | |- transcriptsOf (events (onresult (Some ?r) ?n ?s)) = _ =>
        apply (proj1 (proj2 (onresult_confidence_gate r n s))); reflexivity
    end.
Defined.

(** C2 fails as stated on a confidence of zero: with the threshold at 0.5
    the score is present and strictly below it, yet the result is not
    discarded: its TranscriptEvent is emitted and its wake word acts. *)
Lemma zero_confidence_not_discarded :
  exists s0 s s',
    construct halfConfidenceOptions true false rejecting = Some s0 /\
    s = run s0 startUp /\
    s' = onresult (Some {| res_transcript := lit "hello"; res_isFinal := false;
                           res_confidence := Some 0%float |}) 9 s /\
    PrimFloat.ltb 0%float (wakeConfidenceThreshold (config s)) = true /\
    List.length (transcriptsOf (events s)) = 0%nat /\
    List.length (transcriptsOf (events s')) = 1%nat /\
    currentState s = Listening /\
    currentState s' = Transcribing.
Proof.
  eexists. eexists. eexists.
  split; [reflexivity|]. split; [reflexivity|]. split; [reflexivity|].
  vm_compute. repeat split; reflexivity.
Qed.

(** ** Mode transitions on a result *)

Lemma setState_modes st m e s :
  onEventCallback s = true ->
  modesOf (events (setState st m e s)) = modesOf (events s) ++ [st].
Proof.
  intro H. rewrite (setState_events st m e s H), modesOf_app. reflexivity.
Qed.

Lemma setState_onEventCallback st m e s :
  onEventCallback (setState st m e s) = onEventCallback s.
Proof.
  unfold setState, emitEvent. simpl.
  destruct (onEventCallback s) eqn:E; simpl; congruence.
Qed.

(** The handler once the gate is passed and the transcript is emitted:
    the wake check, then the sleep check on the flag the wake check left. *)
Lemma onresult_checks r now s :
  belowThreshold (res_confidence r) s = false ->
  onresult (Some r) now s =
  let s1 := emitTranscript (res_transcript r) (res_isFinal r)
                           (res_confidence r) now s in
  if isTranscribing s
  then if detectSleepWord s (res_transcript r)
       then disableTranscriptionMode s1 else s1
  else if detectWakeWord s (res_transcript r)
       then if detectSleepWord s (res_transcript r)
            then disableTranscriptionMode (enableTranscriptionMode s1)
            else enableTranscriptionMode s1
       else s1.
Proof.
  intro Hb. rewrite (onresult_accepted r now s Hb). cbv zeta.
  set (s1 := emitTranscript _ _ _ _ s).
  assert (Hi : isTranscribing s1 = isTranscribing s)
    by (unfold s1, emitTranscript, emitEvent; now destruct (onEventCallback s)).
  assert (Hc : config s1 = config s)
    by (unfold s1, emitTranscript, emitEvent; now destruct (onEventCallback s)).
  assert (Hw : detectWakeWord s1 (res_transcript r) =
               detectWakeWord s (res_transcript r))
    by (unfold detectWakeWord; now rewrite Hc).
  assert (Hs : detectSleepWord s1 (res_transcript r) =
               detectSleepWord s (res_transcript r))
    by (unfold detectSleepWord; now rewrite Hc).
  rewrite Hi, Hw. clearbody s1.
  destruct (isTranscribing s) eqn:Et; simpl.
  - now rewrite Hi, Hs.
  - destruct (detectWakeWord s (res_transcript r)); simpl.
    + unfold enableTranscriptionMode at 1 2. rewrite Hi. simpl.
      rewrite setState_isTranscribing. simpl.
      unfold detectSleepWord at 1. rewrite setState_config. simpl.
      fold (detectSleepWord s1 (res_transcript r)). rewrite Hs.
      destruct (detectSleepWord s (res_transcript r)); [|reflexivity].
      unfold enableTranscriptionMode. now rewrite Hi.
    + now rewrite Hi.
Qed.

(** C3, as the code has it: the two checks run one after the other. A
    result makes no transition, one transition, or - when the instance is
    not transcribing and the text holds a wake phrase and a sleep phrase -
    the two transitions to Transcribing and back to Listening; it never
    sleeps first and wakes second. *)
Theorem onresult_wakes_then_sleeps (r : RecognitionResult) (now : Z) (s : STT) :
  onEventCallback s = true ->
  belowThreshold (res_confidence r) s = false ->
  modesOf (events (onresult (Some r) now s)) =
    modesOf (events s) ++
    (if isTranscribing s
     then if detectSleepWord s (res_transcript r) then [Listening] else []
     else if detectWakeWord s (res_transcript r)
          then if detectSleepWord s (res_transcript r)
               then [Transcribing; Listening] else [Transcribing]
          else []) /\
  isTranscribing (onresult (Some r) now s) =
    (if isTranscribing s
     then negb (detectSleepWord s (res_transcript r))
     else (detectWakeWord s (res_transcript r) &&
           negb (detectSleepWord s (res_transcript r)))%bool).
Proof.
  intros Hcb Hb. rewrite (onresult_checks r now s Hb). cbv zeta.
  set (s1 := emitTranscript _ _ _ _ s).
  assert (Hi : isTranscribing s1 = isTranscribing s)
    by (unfold s1, emitTranscript, emitEvent; now destruct (onEventCallback s)).
  assert (Hc1 : onEventCallback s1 = true)
    by (unfold s1, emitTranscript, emitEvent; now rewrite Hcb).
  assert (Hm : modesOf (events s1) = modesOf (events s)).
  { unfold s1, emitTranscript, emitEvent. rewrite Hcb. simpl.
    rewrite modesOf_app. simpl. apply app_nil_r. }
  clearbody s1.
  destruct (isTranscribing s) eqn:Et.
  - destruct (detectSleepWord s (res_transcript r)); simpl.
    + unfold disableTranscriptionMode. rewrite Hi.
      rewrite setState_modes, setState_isTranscribing by exact Hc1.
      simpl. now rewrite Hm.
    + now rewrite Hm, Hi, app_nil_r.
  - destruct (detectWakeWord s (res_transcript r)); simpl.
    + assert (He : enableTranscriptionMode s1 =
                   setState Transcribing None None (set_isTranscribing true s1))
        by (unfold enableTranscriptionMode; now rewrite Hi).
      rewrite He.
      destruct (detectSleepWord s (res_transcript r)); simpl.
      * unfold disableTranscriptionMode.
        rewrite (setState_isTranscribing Transcribing). simpl.
        rewrite setState_modes, setState_isTranscribing.
        -- simpl. rewrite setState_modes by exact Hc1. simpl.
           rewrite Hm, <- app_assoc. now split.
        -- simpl. now rewrite setState_onEventCallback.
      * rewrite setState_modes, setState_isTranscribing by exact Hc1.
        simpl. now rewrite Hm.
    + now rewrite Hm, Hi, app_nil_r.
Qed.

Lemma onresult_wakes_then_sleeps_witness :
  exists s0 s,
    construct defaultOptions true false rejecting = Some s0 /\
    s = run s0 startUp /\
    onEventCallback s = true /\
    belowThreshold (Some 0.75%float) s = false /\
    modesOf (events (onresult (Some {| res_transcript := lit "oh hi there";
                                       res_isFinal := true;
                                       res_confidence := Some 0.75%float |})
                              9 s)) =
    modesOf (events s) ++ [Transcribing] /\
    isTranscribing (onresult (Some {| res_transcript := lit "oh hi there";
                                      res_isFinal := true;
                                      res_confidence := Some 0.75%float |})
                             9 s) = true.
Proof.
  eexists. eexists. split; [reflexivity|]. split; [reflexivity|].
  split; [reflexivity|]. split; [reflexivity|].
  match goal with
  | |- modesOf (events (onresult (Some ?r) ?n ?s)) = _ /\ _ =>
      exact (onresult_wakes_then_sleeps r n s eq_refl eq_refl)
  end.
Defined.

(** C3 fails as stated on ["hi bye"]: heard while listening, the one
    result wakes the instance and puts it back to sleep, with both
    StateEvents emitted. *)
Lemma one_result_wakes_and_sleeps :
  exists s0 s s',
    construct defaultOptions true false rejecting = Some s0 /\
    s = run s0 startUp /\
    s' = onresult (Some {| res_transcript := lit "hi bye"; res_isFinal := true;
                           res_confidence := Some 0.75%float |}) 9 s /\
    currentState s = Listening /\
    isTranscribing s = false /\
    modesOf (events s') = modesOf (events s) ++ [Transcribing; Listening] /\
    currentState s' = Listening /\
    isTranscribing s' = false.
Proof.
  eexists. eexists. eexists.
  split; [reflexivity|]. split; [reflexivity|]. split; [reflexivity|].
  vm_compute. repeat split; reflexivity.
Qed.

(** ** Entering the Transcribing Mode *)

Lemma emitTranscript_currentState t f x now s :
  currentState (emitTranscript t f x now s) = currentState s.
Proof. unfold emitTranscript, emitEvent. now destruct (onEventCallback s). Qed.

Lemma disableTranscriptionMode_notTranscribing s :
  notTranscribing s -> notTranscribing (disableTranscriptionMode s).
Proof.
  intro H. unfold disableTranscriptionMode, notTranscribing.
  destruct (isTranscribing s); [|exact H].
  rewrite setState_currentState. discriminate.
Qed.

(** C8, as the code has it: a step takes the Mode to Transcribing only
    through [enableTranscriptionMode] - the public call or a wake match
    that has passed the confidence gate - and only while the flag is
    false; with the flag true the public call changes nothing and a result
    is only emitted and checked for a sleep phrase. The Mode the step
    starts from is not looked at. *)
Theorem transcribing_entered_by_enable (s : STT) (i : Input) :
  (currentState s <> Transcribing ->
   currentState (step s i) = Transcribing ->
   isTranscribing s = false /\
   (i = CallEnableTranscription \/
    exists r now,
      i = RecognitionResultEvent (Some r) now /\
      belowThreshold (res_confidence r) s = false /\
      detectWakeWord s (res_transcript r) = true)) /\
  (isTranscribing s = true -> enableTranscriptionModePublic s = s) /\
  (isTranscribing s = true ->
   forall r now,
     belowThreshold (res_confidence r) s = false ->
     onresult (Some r) now s =
     if detectSleepWord s (res_transcript r)
     then disableTranscriptionMode
            (emitTranscript (res_transcript r) (res_isFinal r)
                            (res_confidence r) now s)
     else emitTranscript (res_transcript r) (res_isFinal r)
                         (res_confidence r) now s).
Proof.
  split.
  - intros Hn Ht.
    pose proof (framed_step notTranscribing s i Hn) as Hf.
    destruct i; try (exfalso; exact (Hf Ht)).
    + simpl in Ht. unfold enableTranscriptionModePublic, enableTranscriptionMode in Ht.
      destruct (isTranscribing s); simpl in Ht; [contradiction|].
      split; [reflexivity | now left].
    + simpl in Ht. destruct r as [r|]; [|contradiction].
      destruct (belowThreshold (res_confidence r) s) eqn:Hb.
      { unfold onresult in Ht. rewrite Hb in Ht. contradiction. }
      rewrite (onresult_checks r now s Hb) in Ht. cbv zeta in Ht.
      pose proof (emitTranscript_currentState (res_transcript r) (res_isFinal r)
                    (res_confidence r) now s) as H1.
      set (s1 := emitTranscript _ _ _ _ s) in *.
      assert (Hn1 : notTranscribing s1) by (unfold notTranscribing; congruence).
      destruct (isTranscribing s) eqn:Et.
      * exfalso.
        destruct (detectSleepWord s (res_transcript r));
          [exact (disableTranscriptionMode_notTranscribing s1 Hn1 Ht)
          | exact (Hn1 Ht)].
      * split; [reflexivity|]. right. exists r, now.
        split; [reflexivity|]. split; [exact Hb|].
        destruct (detectWakeWord s (res_transcript r)); [reflexivity|].
        exfalso. exact (Hn1 Ht).
  - split.
    + intro Ht. unfold enableTranscriptionModePublic, enableTranscriptionMode.
      now rewrite Ht.
    + intros Ht r now Hb. rewrite (onresult_checks r now s Hb). cbv zeta.
      now rewrite Ht.
Qed.

Lemma transcribing_entered_by_enable_witness :
  exists s0 s,
    construct defaultOptions true false rejecting = Some s0 /\
    s = run s0 startUp /\
    currentState s <> Transcribing /\
    currentState (step s (RecognitionResultEvent
                            (Some {| res_transcript := lit "Hello, world.";
                                     res_isFinal := true;
                                     res_confidence := None |}) 9))
      = Transcribing /\
    isTranscribing s = false /\
    (RecognitionResultEvent
       (Some {| res_transcript := lit "Hello, world."; res_isFinal := true;
                res_confidence := None |}) 9 = CallEnableTranscription \/
     exists r now,
       RecognitionResultEvent
         (Some {| res_transcript := lit "Hello, world."; res_isFinal := true;
                  res_confidence := None |}) 9
       = RecognitionResultEvent (Some r) now /\
       belowThreshold (res_confidence r) s = false /\
       detectWakeWord s (res_transcript r) = true).
Proof.
  eexists. eexists. split; [reflexivity|]. split; [reflexivity|].
  split; [vm_compute; discriminate|]. split; [vm_compute; reflexivity|].
  match goal with
  | |- isTranscribing ?s = false /\ (?i = _ \/ _) =>
      apply (proj1 (transcribing_entered_by_enable s i));
        vm_compute; [discriminate | reflexivity]
  end.
Defined.

(** C8 fails as stated on a fresh instance: [enableTranscriptionModePublic]
    takes it from Idle to Transcribing with no wake phrase heard; and a
    wake phrase that arrives after [stopListening] takes it from Stopped
    to Transcribing. *)
Lemma transcribing_entered_from_idle :
  exists s0 s1 s2,
    construct defaultOptions true false rejecting = Some s0 /\
    s1 = step s0 CallEnableTranscription /\
    s2 = run s0 (startUp ++
                 [CallStopListening false;
                  RecognitionResultEvent
                    (Some {| res_transcript := lit "hello"; res_isFinal := true;
                             res_confidence := Some 0.75%float |}) 9]) /\
    currentState s0 = Idle /\
    currentState s1 = Transcribing /\
    modesOf (events s1) = [Transcribing] /\
    modesOf (events s2) = [Listening; Listening; Stopped; Transcribing] /\
    currentState s2 = Transcribing.
Proof.
  eexists. eexists. eexists.
  split; [reflexivity|]. split; [reflexivity|]. split; [reflexivity|].
  vm_compute. repeat split; reflexivity.
Qed.

(** ** Failures while the network is down *)

(** C6, as the code has it. When the probe finds the network down,
    [handleNetworkError] sets Error with code [network-offline] and
    returns: no timer, no listener, no counted attempt; the restart on
    reconnection is the one call of [startListening] by the [online]
    listener of the constructor. The one-shot listener is registered only
    when the probe finds the network up and the later read finds it down:
    then no timer is armed, and the attempt is counted. *)
Theorem offline_failure_handling (s : STT) (onLine' : bool) (jitter : Z) :
  handleNetworkError_afterProbe false onLine' jitter s =
    setState Error (Some MsgNoInternet) (Some network_offline) s /\
  timers (handleNetworkError_afterProbe false onLine' jitter s) = timers s /\
  onlineOnce (handleNetworkError_afterProbe false onLine' jitter s)
    = onlineOnce s /\
  restartAttempts (handleNetworkError_afterProbe false onLine' jitter s)
    = restartAttempts s /\
  (autoRestart (config s) = true -> onlineOnce s = 0%nat ->
   dispatchOnline true (handleNetworkError_afterProbe false onLine' jitter s) =
   suspend (AwaitMicrophone ByOnlineListener)
           (handleNetworkError_afterProbe false onLine' jitter s)) /\
  (autoRestart (config s) = true ->
   (restartAttempts s < maxRestartAttempts (config s))%Z ->
   timersOwned s ->
   onlineOnce (handleNetworkError_afterProbe true false jitter s)
     = S (onlineOnce s) /\
   restartAttempts (handleNetworkError_afterProbe true false jitter s)
     = (restartAttempts s + 1)%Z /\
   timers (handleNetworkError_afterProbe true false jitter s) = [] /\
   restartTimeout (handleNetworkError_afterProbe true false jitter s) = None /\
   currentState (handleNetworkError_afterProbe true false jitter s) = Error).
Proof.
  assert (E : handleNetworkError_afterProbe false onLine' jitter s =
              setState Error (Some MsgNoInternet) (Some network_offline) s)
    by reflexivity.
  rewrite E, setState_timers, setState_onlineOnce, setState_restartAttempts.
  repeat (split; [reflexivity|]). split.
  - intros Ha H0. unfold dispatchOnline, onlineHandler, callStartListening,
      startListening.
    rewrite setState_config, Ha, !setState_currentState. simpl.
    unfold suspend. simpl. rewrite setState_onlineOnce, H0. simpl.
    unfold setState, emitEvent. destruct s as [c cb rec st tr att to tm nh oo pd ev].
    simpl in *. subst oo. destruct cb; reflexivity.
  - intros Ha Hlt Ho. unfold handleNetworkError_afterProbe. simpl.
    set (s1 := if recognition s then set_recognition false s else s).
    assert (Hc : config s1 = config s) by (unfold s1; now destruct (recognition s)).
    assert (Hatt : restartAttempts s1 = restartAttempts s)
      by (unfold s1; now destruct (recognition s)).
    assert (Hoo : onlineOnce s1 = onlineOnce s)
      by (unfold s1; now destruct (recognition s)).
    assert (Ho1 : timersOwned s1) by (unfold s1; now destruct (recognition s)).
    clearbody s1. apply Z.ltb_lt in Hlt.
    rewrite Hc, Hatt, Ha, Hlt. simpl.
    set (s2 := set_onlineOnce _ _).
    assert (Ho2 : timersOwned s2)
      by (unfold s2, timersOwned; simpl;
          now rewrite setState_timers, setState_restartTimeout).
    rewrite (clearRestartTimeout_timers s2 Ho2), clearRestartTimeout_field,
      clearRestartTimeout_attempts, clearRestartTimeout_currentState.
    unfold clearRestartTimeout.
    assert (H2 : onlineOnce s2 = S (onlineOnce s)) by (unfold s2; simpl; congruence).
    assert (H3 : restartAttempts s2 = (restartAttempts s + 1)%Z)
      by (unfold s2; simpl; now rewrite setState_restartAttempts).
    assert (H4 : currentState s2 = Error)
      by (unfold s2; simpl; now rewrite setState_currentState).
    clearbody s2.
    destruct (restartTimeout s2); simpl; repeat split; assumption.
Qed.

Lemma offline_failure_handling_witness :
  exists s0 s,
    construct defaultOptions true false rejecting = Some s0 /\
    s = set_pending [] (run s0 (startUp ++ [RecognitionErrorEvent err_network])) /\
    autoRestart (config s) = true /\
    onlineOnce s = 0%nat /\
    (restartAttempts s < maxRestartAttempts (config s))%Z /\
    timersOwned s /\
    handleNetworkError_afterProbe false false 7 s =
      setState Error (Some MsgNoInternet) (Some network_offline) s /\
    timers (handleNetworkError_afterProbe false false 7 s) = timers s /\
    onlineOnce (handleNetworkError_afterProbe false false 7 s) = onlineOnce s /\
    restartAttempts (handleNetworkError_afterProbe false false 7 s)
      = restartAttempts s /\
    (autoRestart (config s) = true -> onlineOnce s = 0%nat ->
     dispatchOnline true (handleNetworkError_afterProbe false false 7 s) =
     suspend (AwaitMicrophone ByOnlineListener)
             (handleNetworkError_afterProbe false false 7 s)) /\
    (autoRestart (config s) = true ->
     (restartAttempts s < maxRestartAttempts (config s))%Z ->
     timersOwned s ->
     onlineOnce (handleNetworkError_afterProbe true false 7 s)
       = S (onlineOnce s) /\
     restartAttempts (handleNetworkError_afterProbe true false 7 s)
       = (restartAttempts s + 1)%Z /\
     timers (handleNetworkError_afterProbe true false 7 s) = [] /\
     restartTimeout (handleNetworkError_afterProbe true false 7 s) = None /\
     currentState (handleNetworkError_afterProbe true false 7 s) = Error).
Proof.
  eexists. eexists. split; [reflexivity|]. split; [reflexivity|].
  split; [reflexivity|]. split; [reflexivity|]. split; [reflexivity|].
  split; [intros t []|].
  apply offline_failure_handling.
Defined.

(** C6 fails as stated. A listening instance meets a [network] error.
    With the network down at the probe ([a]) no one-shot listener is
    registered; with the network up at the probe and down at the later
    read ([b]) the listener is registered, the attempt is counted, and
    the return of the network starts two calls of [startListening]: one
    by the listener of the constructor, one by the one-shot listener. *)
Lemma offline_failure_registers_no_listener :
  exists s0 s a b,
    construct defaultOptions true false rejecting = Some s0 /\
    s = run s0 (startUp ++ [RecognitionErrorEvent err_network]) /\
    a = step s (Resume 0 (ProbeDone false false 7)) /\
    b = step s (Resume 0 (ProbeDone true false 7)) /\
    restartAttempts s = 0%Z /\
    onlineOnce a = 0%nat /\
    timers a = [] /\
    lastErrorCode (events a) = Some network_offline /\
    onlineOnce b = 1%nat /\
    timers b = [] /\
    restartAttempts b = 1%Z /\
    pending (step b (WindowOnline true)) =
      [AwaitMicrophone ByOnlineListener; AwaitMicrophone ByOnlineListener].
Proof.
  eexists. eexists. eexists. eexists.
  split; [reflexivity|]. split; [reflexivity|]. split; [reflexivity|].
  split; [reflexivity|]. vm_compute. repeat split; reflexivity.
Qed.

(** ** Starting *)

(** C7, as the code has it: from a Mode other than Listening and
    Transcribing, a start that fails always sets the Mode to Error, but
    the promise is rejected only when the adapter cannot be built or
    started (or the second microphone request fails); with the network
    down or the microphone denied the promise resolves. The codes are
    [offline], [microphone-denied] and [permission-denied]; a failure to
    build the adapter carries no code. *)
Theorem startListening_failures (e : StartEnv) (s : STT) :
  (STTState_eqb (currentState s) Listening ||
   STTState_eqb (currentState s) Transcribing)%bool = false ->
  (env_onLine e = false ->
   startListening_run e s =
   (setState Error (Some MsgNoInternet) (Some offline) s, Resolved)) /\
  (env_onLine e = true -> env_microphone e = false ->
   startListening_run e s =
   (setState Error (Some MsgMicrophoneRequired) (Some microphone_denied) s,
    Resolved)) /\
  (env_onLine e = true -> env_microphone e = true ->
   recognition s = false -> env_apiAvailable e = false ->
   startListening_run e s =
   (setState Error (Some MsgInitFailed) None s, Rejected)) /\
  (env_onLine e = true -> env_microphone e = true ->
   (recognition s || env_apiAvailable e)%bool = true ->
   (negb (env_stream e) || env_startThrows e)%bool = true ->
   startListening_run e s =
   (setState Error (Some MsgMicrophoneDenied) (Some permission_denied)
             (set_recognition true s), Rejected)) /\
  (env_onLine e = true -> env_microphone e = true ->
   (recognition s || env_apiAvailable e)%bool = true ->
   env_stream e = true -> env_startThrows e = false ->
   startListening_run e s =
   (setState Listening None None (set_recognition true s), Resolved)).
Proof.
  intro Hst. unfold startListening_run, startListening. rewrite Hst.
  repeat split.
  - intros ->. reflexivity.
  - intros -> ->. reflexivity.
  - intros -> -> Hr ->. simpl.
    unfold startListening_afterMicrophone, initRecognition. simpl.
    now rewrite Hr.
  - intros -> -> Hr Hf. simpl.
    unfold startListening_afterMicrophone, initRecognition,
      startListening_afterStream. simpl.
    destruct s as [c cb rec st tr att to tm nh oo pd ev]. simpl in *.
    destruct rec; simpl in *.
    + destruct (env_stream e); simpl in *; [rewrite Hf|]; reflexivity.
    + rewrite Hr. simpl. destruct (env_stream e); simpl in *;
        [rewrite Hf|]; reflexivity.
  - intros -> -> Hr -> ->. simpl.
    unfold startListening_afterMicrophone, initRecognition,
      startListening_afterStream. simpl.
    destruct s as [c cb rec st tr att to tm nh oo pd ev]. simpl in *.
    destruct rec; simpl in *; [reflexivity|]. rewrite Hr. reflexivity.
Qed.

Lemma startListening_failures_witness :
  exists s,
    construct defaultOptions true false rejecting = Some s /\
    (STTState_eqb (currentState s) Listening ||
     STTState_eqb (currentState s) Transcribing)%bool = false /\
    startListening_run {| env_onLine := true; env_microphone := true;
                          env_apiAvailable := true; env_stream := true;
                          env_startThrows := true |} s =
    (setState Error (Some MsgMicrophoneDenied) (Some permission_denied)
              (set_recognition true s), Rejected).
Proof.
  eexists. split; [reflexivity|]. split; [reflexivity|].
  match goal with
  | |- startListening_run ?e ?s = _ =>
      apply (proj1 (proj2 (proj2 (proj2 (startListening_failures e s eq_refl)))));
        reflexivity
  end.
Defined.

(** C7 fails as stated on a start with the network down, and on a start
    with the microphone denied: the Mode becomes Error with a code, and
    the promise resolves. *)
Lemma startListening_fails_by_resolving :
  exists s a b,
    construct defaultOptions true false rejecting = Some s /\
    a = startListening_run {| env_onLine := false; env_microphone := true;
                              env_apiAvailable := true; env_stream := true;
                              env_startThrows := false |} s /\
    b = startListening_run {| env_onLine := true; env_microphone := false;
                              env_apiAvailable := true; env_stream := true;
                              env_startThrows := false |} s /\
    snd a = Resolved /\
    currentState (fst a) = Error /\
    lastErrorCode (events (fst a)) = Some offline /\
    snd b = Resolved /\
    currentState (fst b) = Error /\
    lastErrorCode (events (fst b)) = Some microphone_denied.
Proof.
  eexists. eexists. eexists.
  split; [reflexivity|]. split; [reflexivity|]. split; [reflexivity|].
  vm_compute. repeat split; reflexivity.
Qed.

(** ** The matchers of an instance *)

Lemma step_config s i : reachable s -> config (step s i) = config s.
Proof.
  intro Hr. exact (proj1 (inOrder_step (config s) s i (reachable_inOrder s Hr))).
Qed.

Lemma checkBrowserSupport_config supported fileProtocol s :
  config (checkBrowserSupport supported fileProtocol s) = config s.
Proof.
  unfold checkBrowserSupport.
  destruct (negb supported); [apply setState_config|].
  destruct fileProtocol; [apply setState_config | reflexivity].
Qed.

(** Words with pattern characters reach the engine, and the instance
    answers as the expression the engine compiled. *)
Lemma construct_foreign o supported fileProtocol engine s :
  construct o supported fileProtocol engine = Some s ->
  existsb (fun c => isSyntaxCharacter c && negb (Ascii.eqb c bar))%bool
          (join [bar] (orElse (opt_wakeWords o) defaultWakeWords)) = true ->
  exists accepts,
    engine (pattern (orElse (opt_wakeWords o) defaultWakeWords)) = Some accepts /\
    forall T, detectWakeWord s T = accepts (normalizeTranscript T).
Proof.
  unfold construct, newRegExp. intros H Hsyn. rewrite Hsyn in H.
  destruct (engine (pattern (orElse (opt_wakeWords o) defaultWakeWords)))
    as [accepts|]; [|discriminate].
  exists accepts. split; [reflexivity|]. simpl in H.
  destruct (if existsb _ (join [bar] (orElse (opt_sleepWords o) defaultSleepWords))
            then _ else _) as [sr|]; [|discriminate].
  injection H as <-. intro T. unfold detectWakeWord.
  now rewrite checkBrowserSupport_config.
Qed.

(** The words are not escaped: the wake word [)||(] gives the pattern
    [\b()||()\b], and with an engine that compiles it the instance wakes on
    the empty text. *)
Lemma pattern_words_are_syntax :
  pattern [lit ")||("] = lit "\b()||()\b" /\
  exists s,
    construct groupClosingOptions true false emptyAlternativeEngine = Some s /\
    reachable s /\
    detectWakeWord s [] = true.
Proof.
  split; [reflexivity|]. eexists. split; [reflexivity|]. split.
  - apply (reachable_new groupClosingOptions true false emptyAlternativeEngine).
    reflexivity.
  - reflexivity.
Qed.

(** The two patterns of a reachable instance are those of its word lists,
    compiled by the engine the instance was built with. *)
Lemma reachable_compiled s :
  reachable s ->
  exists engine,
    newRegExp engine (wakeWords (config s)) = Some (wakeRegex (config s)) /\
    newRegExp engine (sleepWords (config s)) = Some (sleepRegex (config s)).
Proof.
  induction 1 as [o supported fileProtocol engine s H | s i Hr IH].
  - exists engine. unfold construct in H.
    destruct (newRegExp engine (orElse (opt_wakeWords o) defaultWakeWords))
      as [wr|] eqn:Ew; [|discriminate].
    destruct (newRegExp engine (orElse (opt_sleepWords o) defaultSleepWords))
      as [sr|] eqn:Es; [|discriminate].
    injection H as <-. rewrite checkBrowserSupport_config. simpl. now split.
  - now rewrite (step_config s i Hr).
Qed.

(** C1, as the code has it: on every reachable instance, whatever engine
    compiled its patterns, if the wake (or sleep) words are a list of plain
    phrases that is not empty, [detectWakeWord] (or [detectSleepWord])
    accepts a raw text exactly when some phrase of the list stands in the
    normalized text as a whole word, whatever the case of the phrase; and
    if the words are a list, empty or not, of phrases without pattern
    characters, a text whose normal form is empty is not accepted. *)
Theorem detect_whole_words (s : STT) :
  reachable s ->
  (wakeWords (config s) <> [] ->
   forallb isPlainPhrase (wakeWords (config s)) = true ->
   forall T, detectWakeWord s T = true
             <-> somePhraseOccurs (wakeWords (config s)) T) /\
  (sleepWords (config s) <> [] ->
   forallb isPlainPhrase (sleepWords (config s)) = true ->
   forall T, detectSleepWord s T = true
             <-> somePhraseOccurs (sleepWords (config s)) T) /\
  (areLiteral (wakeWords (config s)) = true ->
   forall T, normalizeTranscript T = [] -> detectWakeWord s T = false) /\
  (areLiteral (sleepWords (config s)) = true ->
   forall T, normalizeTranscript T = [] -> detectSleepWord s T = false).
Proof.
  intro Hr. destruct (reachable_compiled s Hr) as [engine [Hw Hs]].
  split; [|split; [|split]].
  - intros Hne Hp T.
    destruct (newRegExp_accepts_whole_words engine _ Hne Hp) as [re [Hre Hiff]].
    unfold detectWakeWord. rewrite Hre in Hw. injection Hw as <-. apply Hiff.
  - intros Hne Hp T.
    destruct (newRegExp_accepts_whole_words engine _ Hne Hp) as [re [Hre Hiff]].
    unfold detectSleepWord. rewrite Hre in Hs. injection Hs as <-. apply Hiff.
  - intros Hlit T HT. unfold detectWakeWord.
    rewrite (newRegExp_literal engine _ Hlit) in Hw. injection Hw as <-.
    rewrite HT. apply test_empty.
  - intros Hlit T HT. unfold detectSleepWord.
    rewrite (newRegExp_literal engine _ Hlit) in Hs. injection Hs as <-.
    rewrite HT. apply test_empty.
Qed.

Lemma detect_whole_words_witness :
  exists s0 s,
    construct defaultOptions true false rejecting = Some s0 /\
    s = run s0 startUp /\
    reachable s /\
    wakeWords (config s) <> [] /\
    forallb isPlainPhrase (wakeWords (config s)) = true /\
    sleepWords (config s) <> [] /\
    forallb isPlainPhrase (sleepWords (config s)) = true /\
    areLiteral (wakeWords (config s)) = true /\
    areLiteral (sleepWords (config s)) = true /\
    normalizeTranscript (lit " ?! ") = [] /\
    (detectWakeWord s (lit "Oh, hi there!") = true
     <-> somePhraseOccurs (wakeWords (config s)) (lit "Oh, hi there!")) /\
    (detectSleepWord s (lit "goodbyes") = true
     <-> somePhraseOccurs (sleepWords (config s)) (lit "goodbyes")) /\
    detectWakeWord s (lit "Oh, hi there!") = true /\
    detectSleepWord s (lit "goodbyes") = false /\
    detectWakeWord s (lit " ?! ") = false /\
    detectSleepWord s (lit " ?! ") = false.
Proof.
  eexists. eexists. split; [reflexivity|]. split; [reflexivity|].
  match goal with
  | |- reachable ?s /\ _ =>
      assert (Hr : reachable s)
        by (apply reachable_run, (reachable_new defaultOptions true false rejecting);
            reflexivity);
      pose proof (detect_whole_words s Hr) as [Hw [Hs [He He']]]
  end.
  split; [exact Hr|].
  split; [discriminate|]. split; [reflexivity|].
  split; [discriminate|]. split; [reflexivity|].
  split; [reflexivity|]. split; [reflexivity|]. split; [reflexivity|].
  split; [apply Hw; [discriminate | reflexivity]|].
  split; [apply Hs; [discriminate | reflexivity]|].
  split; [reflexivity|]. split; [reflexivity|].
  split; [apply (He eq_refl (lit " ?! ")) | apply (He' eq_refl (lit " ?! "))];
    reflexivity.
Defined.
